(** * Knowledge assistant: hierarchical store, retrieval and answer synthesis

    A shallow embedding of [src/tools/lancedb_manager.py],
    [src/tools/knowledge_base.py] and [src/tools/qa_processor.py].

    Python code that talks to the storage engine, raises or catches
    exceptions is written in a state-and-exception monad [M] over a [World]
    holding the database, the trace of engine requests and a fault schedule
    for the engine.  The collaborators of this code (the OpenAI client, the
    tokenizer's text clean-up, [json], [uuid], the clock, the engine's
    ranking functions) are gathered in a record [Externals] and stay a
    parameter of the whole development. *)

From Stdlib Require Import ZArith QArith List String Ascii Lia Bool.
From stdpp Require Import base option list strings gmap pretty.

Local Open Scope string_scope.
Local Open Scope Z_scope.
Local Open Scope list_scope.

(** ** Python values *)

(** [str(e)] and the class of an exception. *)
Record Exn := mkExn { exn_class : string; exn_msg : string }.

Definition ValueError (msg : string) : Exn := mkExn "ValueError" msg.
Definition RuntimeError (msg : string) : Exn := mkExn "RuntimeError" msg.
Definition IndexError (msg : string) : Exn := mkExn "IndexError" msg.
Definition NameError (name : string) : Exn :=
  mkExn "NameError" ("name '" +:+ name +:+ "' is not defined").
Definition KeyError (key : string) : Exn := mkExn "KeyError" ("'" +:+ key +:+ "'").
Definition TypeError (msg : string) : Exn := mkExn "TypeError" msg.
Definition AttributeError (msg : string) : Exn := mkExn "AttributeError" msg.
Definition EngineError (msg : string) : Exn := mkExn "lancedb.Error" msg.

(** Truthiness of an [Optional[str]]: [None] and [''] are falsy. *)
Definition truthy (s : option string) : bool :=
  match s with
  | Some x => negb (String.eqb x "")
  | None => false
  end.

(** [a if a else b] on an [Optional[str]]. *)
Definition if_truthy_else (a b : option string) : option string :=
  if truthy a then a else b.

(** [str(x)] inside an f-string for an [Optional[str]]. *)
Definition fmt (s : option string) : string :=
  match s with
  | Some x => x
  | None => "None"
  end.

(** Floats are only compared and sorted, never computed with: they are
    taken as rationals. *)
Definition Qltb (a b : Q) : bool := negb (Qle_bool b a).

(** [[0.0] * n] *)
Definition zero_vector (n : Z) : list Q := repeat 0%Q (Z.to_nat n).

(** [int(a / b)] on integers: true division, then truncation toward zero. *)
Definition int_of_div (a b : Z) : Z := Z.quot a b.

(** [int(n ** 0.5)] on a non-negative integer: the truncated square root. *)
Definition int_of_sqrt (n : Z) : Z := Z.sqrt n.

(** ** Rows of the four tables

    String columns other than ids are nullable in Arrow: [None] is a null. *)

Record CategoryRow := mkCategory {
  cat_id : string;
  cat_name : option string;
  cat_description : option string
}.

Record TopicRow := mkTopic {
  top_id : string;
  top_category_id : string;
  top_name : option string;
  top_description : option string
}.

Record EntryRow := mkEntry {
  ent_id : string;
  ent_topic_id : string;
  ent_title : option string;
  ent_content : option string;
  ent_tags_json : option string;
  ent_created_at : option string;
  ent_updated_at : option string;
  ent_vector : option (list Q);
  ent_source : option string
}.

(** The [Document] model of [KnowledgeBase]. *)
Record DocRow := mkDoc {
  doc_text : string;
  doc_vector : list Q;
  doc_source : string;
  doc_title : option string
}.

(** ** Arrow schemas *)

Inductive ArrowType :=
| pa_string
| pa_list_float32 (list_size : option Z).

Record Field := mkField { field_name : string; field_type : ArrowType }.

Definition SCHEMAS : list (string * list (string * string)) :=
  [ ("categories", [("id", "string"); ("name", "string"); ("description", "string")]);
    ("topics", [("id", "string"); ("category_id", "string"); ("name", "string");
                ("description", "string")]);
    ("entries", [("id", "string"); ("topic_id", "string"); ("title", "string");
                 ("content", "string"); ("tags_json", "string"); ("created_at", "string");
                 ("updated_at", "string"); ("vector", "list<float>"); ("source", "string")]) ].

Definition TEXT_COLUMNS_FOR_INDEX : list (string * list string) :=
  [ ("entries", ["title"; "content"]) ].

Definition VECTOR_COLUMNS_FOR_INDEX : list (string * list string) :=
  [ ("entries", ["vector"]) ].

(** [d[k]] / [k in d] on a class-level dict written as an association list. *)
Fixpoint assoc {A : Type} (k : string) (d : list (string * A)) : option A :=
  match d with
  | [] => None
  | (k', v) :: d' => if String.eqb k k' then Some v else assoc k d'
  end.

(** [x in xs] on a list of strings. *)
Definition str_in (x : string) (xs : list string) : bool :=
  existsb (String.eqb x) xs.

(** ** The storage engine *)

Record IndexSpec := mkIndexSpec {
  distance_type : string;
  num_partitions : Z;
  num_sub_vectors : Z
}.

Record TableMeta := mkMeta {
  tm_schema : list Field;
  tm_fts : list string;                      (* columns with a full-text index *)
  tm_index : list (string * IndexSpec)       (* vector indices, latest first *)
}.

Record DB := mkDB {
  db_tables : gmap string TableMeta;         (* the tables that exist *)
  db_categories : list CategoryRow;
  db_topics : list TopicRow;
  db_entries : list EntryRow;
  db_documents : list DocRow
}.

(** Exact-match predicates, the only ones the code builds:
    [f"col = '{v}'"] and [f"col IN ('v1', 'v2', ...)"]. Ids are taken free
    of quote characters, so that the text of the predicate means what is
    written here. *)
Inductive Pred :=
| PredEq (column value : string)
| PredIn (column : string) (values : list string).

(** Requests that reach the engine and change or query its contents. *)
Inductive Event :=
| EvCreateTable (table : string)
| EvAdd (table : string)
| EvDelete (table : string) (where_ : Pred)
| EvFtsIndex (table column : string)
| EvVectorIndex (table column : string) (spec : IndexSpec)
| EvFtsSearch (table query : string) (limit : nat)
| EvVectorSearch (table : string) (where_ : option Pred) (limit : nat).

(** [w_faults]: one flag per coming engine call, [true] makes that call
    raise; past the end of the schedule the engine is healthy.
    [w_uuid] and [w_clock] count the calls to [uuid.uuid4()] and
    [datetime.now()]. *)
Record World := mkWorld {
  w_db : DB;
  w_log : list Event;
  w_faults : list bool;
  w_uuid : nat;
  w_clock : nat
}.

Definition set_db (f : DB -> DB) (w : World) : World :=
  mkWorld (f (w_db w)) (w_log w) (w_faults w) (w_uuid w) (w_clock w).
Definition set_faults (fs : list bool) (w : World) : World :=
  mkWorld (w_db w) (w_log w) fs (w_uuid w) (w_clock w).
Definition add_log (e : Event) (w : World) : World :=
  mkWorld (w_db w) (w_log w ++ [e]) (w_faults w) (w_uuid w) (w_clock w).

Definition set_tables (f : gmap string TableMeta -> gmap string TableMeta) (d : DB) : DB :=
  mkDB (f (db_tables d)) (db_categories d) (db_topics d) (db_entries d) (db_documents d).

(** ** The monad: state over [World], Python exceptions *)

Inductive Outcome (A : Type) :=
| Ok (a : A)
| Raise (e : Exn).
Arguments Ok {A} a.
Arguments Raise {A} e.

Definition M (A : Type) : Type := World -> Outcome A * World.

#[global] Instance M_ret : MRet M := λ A a w, (Ok a, w).
#[global] Instance M_bind : MBind M := λ A B f m w,
  match m w with
  | (Ok a, w') => f a w'
  | (Raise e, w') => (Raise e, w')
  end.

Definition raise {A : Type} (e : Exn) : M A := λ w, (Raise e, w).

(** [try: body except Exception as e: handler e]: the state reached when
    the exception was raised is kept. *)
Definition try_except {A : Type} (body : M A) (handler : Exn -> M A) : M A :=
  λ w, match body w with
       | (Ok a, w') => (Ok a, w')
       | (Raise e, w') => handler e w'
       end.

Definition get_world : M World := λ w, (Ok w, w).
Definition modify_world (f : World -> World) : M unit := λ w, (Ok tt, f w).

(** [for x in xs: body x] *)
Fixpoint for_each {A : Type} (xs : list A) (body : A -> M unit) : M unit :=
  match xs with
  | [] => mret tt
  | x :: xs' => body x ;; for_each xs' body
  end.

(** A loop that appends one element per iteration to a fresh list. *)
Fixpoint for_collect {A B : Type} (xs : list A) (body : A -> M B) : M (list B) :=
  match xs with
  | [] => mret []
  | x :: xs' => y ← body x; ys ← for_collect xs' body; mret (y :: ys)
  end.

(** Every engine call first consults the fault schedule. *)
Definition engine_call : M unit := λ w,
  match w_faults w with
  | [] => (Ok tt, w)
  | false :: fs => (Ok tt, set_faults fs w)
  | true :: fs => (Raise (EngineError "storage engine failure"), set_faults fs w)
  end.

Definition log_event (e : Event) : M unit := modify_world (add_log e).
Definition get_db : M DB := w ← get_world; mret (w_db w).
Definition modify_db (f : DB -> DB) : M unit := modify_world (set_db f).

(** *** Tables by name *)

(** [db.table_names()] *)
Definition table_names : M (list string) :=
  engine_call ;; d ← get_db; mret (elements (dom (db_tables d))).

(** A table handle is the name it was opened under. *)
Abbreviation Handle := string (only parsing).

(** [db.open_table(name)] *)
Definition open_table (name : string) : M Handle :=
  engine_call ;;
  d ← get_db;
  match db_tables d !! name with
  | Some _ => mret name
  | None => raise (EngineError ("Table '" +:+ name +:+ "' was not found"))
  end.

Definition meta_of (h : Handle) : M TableMeta :=
  d ← get_db;
  match db_tables d !! h with
  | Some tm => mret tm
  | None => raise (EngineError ("Table '" +:+ h +:+ "' was not found"))
  end.

(** [table.schema] *)
Definition schema_of (h : Handle) : M (list Field) :=
  engine_call ;; tm ← meta_of h; mret (tm_schema tm).

Definition rows_in (d : DB) (name : string) : Z :=
  if String.eqb name "categories" then Z.of_nat (length (db_categories d))
  else if String.eqb name "topics" then Z.of_nat (length (db_topics d))
  else if String.eqb name "entries" then Z.of_nat (length (db_entries d))
  else if String.eqb name "documents" then Z.of_nat (length (db_documents d))
  else 0.

(** [table.count_rows()] *)
Definition count_rows (h : Handle) : M Z :=
  engine_call ;; _ ← meta_of h; d ← get_db; mret (rows_in d h).

(** [db.create_table(name, schema=schema)] *)
Definition create_table (name : string) (schema : list Field) : M Handle :=
  engine_call ;;
  d ← get_db;
  match db_tables d !! name with
  | Some _ => raise (EngineError ("Table '" +:+ name +:+ "' already exists"))
  | None =>
      modify_db (set_tables (insert name (mkMeta schema [] []))) ;;
      log_event (EvCreateTable name) ;;
      mret name
  end.

Definition add_fts (column : string) (tm : TableMeta) : TableMeta :=
  mkMeta (tm_schema tm)
         (if str_in column (tm_fts tm) then tm_fts tm else tm_fts tm ++ [column])
         (tm_index tm).

Definition add_index (column : string) (spec : IndexSpec) (tm : TableMeta) : TableMeta :=
  mkMeta (tm_schema tm) (tm_fts tm) ((column, spec) :: tm_index tm).

(** [table.create_fts_index(column)] *)
Definition create_fts_index (h : Handle) (column : string) : M unit :=
  engine_call ;;
  tm ← meta_of h;
  modify_db (set_tables (insert h (add_fts column tm))) ;;
  log_event (EvFtsIndex h column).

(** [table.create_index(column, distance_type=.., num_partitions=..,
    num_sub_vectors=..)] *)
Definition create_index (h : Handle) (column : string) (spec : IndexSpec) : M unit :=
  engine_call ;;
  tm ← meta_of h;
  modify_db (set_tables (insert h (add_index column spec tm))) ;;
  log_event (EvVectorIndex h column spec).

(** *** Typed access to the rows of a table *)

Class RowTable (R : Type) := {
  rt_name : string;
  rt_get : DB -> list R;
  rt_set : list R -> DB -> DB;
  (** the value of a string column; [None] is a null (or no such column) *)
  rt_col : string -> R -> option string;
  rt_vector : R -> option (list Q);
  (** writing rows leaves the set of tables alone *)
  rt_tables : forall rows d, db_tables (rt_set rows d) = db_tables d
}.

#[global] Instance categories_table : RowTable CategoryRow := {|
  rt_name := "categories";
  rt_get := db_categories;
  rt_set := λ rows d, mkDB (db_tables d) rows (db_topics d) (db_entries d) (db_documents d);
  rt_col := λ c r,
    if String.eqb c "id" then Some (cat_id r)
    else if String.eqb c "name" then cat_name r
    else if String.eqb c "description" then cat_description r
    else None;
  rt_vector := λ _, None;
  rt_tables := λ _ _, eq_refl
|}.

#[global] Instance topics_table : RowTable TopicRow := {|
  rt_name := "topics";
  rt_get := db_topics;
  rt_set := λ rows d, mkDB (db_tables d) (db_categories d) rows (db_entries d) (db_documents d);
  rt_col := λ c r,
    if String.eqb c "id" then Some (top_id r)
    else if String.eqb c "category_id" then Some (top_category_id r)
    else if String.eqb c "name" then top_name r
    else if String.eqb c "description" then top_description r
    else None;
  rt_vector := λ _, None;
  rt_tables := λ _ _, eq_refl
|}.

#[global] Instance entries_table : RowTable EntryRow := {|
  rt_name := "entries";
  rt_get := db_entries;
  rt_set := λ rows d, mkDB (db_tables d) (db_categories d) (db_topics d) rows (db_documents d);
  rt_col := λ c r,
    if String.eqb c "id" then Some (ent_id r)
    else if String.eqb c "topic_id" then Some (ent_topic_id r)
    else if String.eqb c "title" then ent_title r
    else if String.eqb c "content" then ent_content r
    else if String.eqb c "tags_json" then ent_tags_json r
    else if String.eqb c "created_at" then ent_created_at r
    else if String.eqb c "updated_at" then ent_updated_at r
    else if String.eqb c "source" then ent_source r
    else None;
  rt_vector := ent_vector;
  rt_tables := λ _ _, eq_refl
|}.

#[global] Instance documents_table : RowTable DocRow := {|
  rt_name := "documents";
  rt_get := db_documents;
  rt_set := λ rows d, mkDB (db_tables d) (db_categories d) (db_topics d) (db_entries d) rows;
  rt_col := λ c r,
    if String.eqb c "text" then Some (doc_text r)
    else if String.eqb c "source" then Some (doc_source r)
    else if String.eqb c "title" then doc_title r
    else None;
  rt_vector := λ r, Some (doc_vector r);
  rt_tables := λ _ _, eq_refl
|}.

Definition eval_pred {R : Type} `{RowTable R} (p : Pred) (r : R) : bool :=
  match p with
  | PredEq c v =>
      match rt_col c r with
      | Some x => String.eqb x v
      | None => false
      end
  | PredIn c vs =>
      match rt_col c r with
      | Some x => str_in x vs
      | None => false
      end
  end.

(** The width of the fixed-size [vector] column of a schema, if it has one. *)
Definition vector_field (schema : list Field) : option Field :=
  List.find (λ f, String.eqb (field_name f) "vector") schema.

Definition vector_width (schema : list Field) : option Z :=
  match vector_field schema with
  | Some f =>
      match field_type f with
      | pa_list_float32 n => n
      | pa_string => None
      end
  | None => None
  end.

(** A vector fits a schema when the schema fixes no width or the same one. *)
Definition fits_width (schema : list Field) (v : option (list Q)) : bool :=
  match vector_width schema, v with
  | Some n, Some x => Z.eqb (Z.of_nat (length x)) n
  | _, _ => true
  end.

Section TypedRows.
Context {R : Type} `{RowTable R}.

Definition typed (h : Handle) : M TableMeta :=
  if String.eqb h rt_name then meta_of h
  else raise (EngineError ("Table '" +:+ h +:+ "' holds other rows")).

(** [table.to_pandas()] *)
Definition to_pandas (h : Handle) : M (list R) :=
  engine_call ;; _ ← typed h; d ← get_db; mret (rt_get d).

(** [table.search().where(p).to_pandas()]: a plain scan, every matching
    row in table order. *)
Definition search_where (h : Handle) (p : Pred) : M (list R) :=
  engine_call ;; _ ← typed h; d ← get_db; mret (List.filter (eval_pred p) (rt_get d)).

(** [table.delete(p)] *)
Definition delete (h : Handle) (p : Pred) : M unit :=
  engine_call ;;
  _ ← typed h;
  modify_db (λ d, rt_set (List.filter (λ r, negb (eval_pred p r)) (rt_get d)) d) ;;
  log_event (EvDelete h p).

(** [table.add(rows)]: a vector of another width than the table's is
    refused, never cut or filled up. *)
Definition add (h : Handle) (rows : list R) : M unit :=
  engine_call ;;
  tm ← typed h;
  if forallb (λ r, fits_width (tm_schema tm) (rt_vector r)) rows then
    modify_db (λ d, rt_set (rt_get d ++ rows) d) ;;
    log_event (EvAdd h)
  else raise (EngineError "vector width does not match the table schema").
End TypedRows.

(** *** Ranking *)

(** Stable insertion sort, as [sorted] is stable: [x] goes after the
    elements that are strictly before it and before everything else. *)
Fixpoint insert_by {A : Type} (before : A -> A -> bool) (x : A) (l : list A) : list A :=
  match l with
  | [] => [x]
  | y :: l' => if before y x then y :: insert_by before x l' else x :: l
  end.

Definition sort_by {A : Type} (before : A -> A -> bool) (l : list A) : list A :=
  List.fold_right (insert_by before) [] l.

Definition ascending {A : Type} (key : A -> Q) (a b : A) : bool := Qltb (key a) (key b).
Definition descending {A : Type} (key : A -> Q) (a b : A) : bool := Qltb (key b) (key a).

(** ** Collaborators kept abstract *)

Record ChatRequest := mkChat {
  chat_model : string;
  chat_system : string;
  chat_user : string;
  chat_temperature : Q;
  chat_max_tokens : Z;
  chat_timeout : Z
}.

(** [openai.OpenAI]: each request answers or raises. *)
Record OpenAIClient := mkClient {
  embeddings_create : string -> string -> Z -> Exn + list Q;
  chat_completions_create : ChatRequest -> Exn + string
}.

Record Externals := mkExternals {
  (** [OpenAI(api_key=os.getenv('OPENAI_API_KEY'))], [None] without a key *)
  openai : option OpenAIClient;
  (** what [get_openai_client()] of [qa_processor.py] returns: it also looks
      for the key in a few [.env] files, [None] when it finds none *)
  get_openai_client : option OpenAIClient;
  (** [Tokenizer.preprocess_for_embedding]: whitespace clean-up, lowering
      and truncation, a total function on strings *)
  tokenizer_preprocess : string -> string;
  json_dumps : list string -> string;
  json_loads : string -> Exn + list string;
  uuid4 : nat -> string;
  now_isoformat : nat -> string;
  (** the engine's full-text score of a row for a query, [None]: no match *)
  fts_score : string -> EntryRow -> option Q;
  (** the engine's distance between a query vector and a stored one *)
  vector_distance : list Q -> list Q -> Q;
  (** [str.strip] *)
  strip : string -> string
}.

Section Model.
Variable ext : Externals.

(** [table.search(query).limit(limit).to_pandas()] with a string query: the
    matching rows with their [_score], best first.  Only [entries] carries
    text columns. *)
Definition fts_search (h : Handle) (query : string) (limit : nat) : M (list (EntryRow * Q)) :=
  engine_call ;;
  tm ← typed (R := EntryRow) h;
  log_event (EvFtsSearch h query limit) ;;
  match tm_fts tm with
  | [] => raise (EngineError "no full-text index on the table")
  | _ :: _ =>
      d ← get_db;
      let hits := omap (λ r, s ← fts_score ext query r; Some (r, s)) (db_entries d) in
      mret (take limit (sort_by (descending snd) hits))
  end.

(** [table.search(vector, ...).where(p).limit(limit).to_pandas()]: the rows
    that pass the predicate with their [_distance], nearest first. A query
    of another width than the column's is refused. *)
Definition vector_search {R : Type} `{RowTable R}
    (h : Handle) (query : list Q) (where_ : option Pred) (limit : nat) : M (list (R * Q)) :=
  engine_call ;;
  tm ← typed (R := R) h;
  log_event (EvVectorSearch h where_ limit) ;;
  if fits_width (tm_schema tm) (Some query) then
    d ← get_db;
    let pass := λ r, match where_ with Some p => eval_pred p r | None => true end in
    let hits := omap (λ r, v ← rt_vector r; Some (r, vector_distance ext query v))
                     (List.filter pass (rt_get d)) in
    mret (take limit (sort_by (ascending snd) hits))
  else raise (EngineError "query vector width does not match the column").

(** ** [knowledge_base.py]: the embedding provider *)

Record OpenAIEmbeddings := mkEmbeddings {
  model_name : string;
  client : option OpenAIClient;
  dimensions : Z
}.

(** [OpenAIEmbeddings.__init__] *)
Definition OpenAIEmbeddings_init (model_name : string) : OpenAIEmbeddings :=
  mkEmbeddings model_name (openai ext)
    (if String.eqb model_name "text-embedding-3-small" then 1536
     else if String.eqb model_name "text-embedding-3-large" then 3072
     else if String.eqb model_name "text-embedding-ada-002" then 1536
     else 3072).

(** [OpenAIEmbeddings()] with the default model name. *)
Definition OpenAIEmbeddings_default : OpenAIEmbeddings :=
  OpenAIEmbeddings_init "text-embedding-3-large".

(** A request to the provider inside a [try]. *)
Definition call {A : Type} (r : Exn + A) : M A :=
  match r with
  | inr a => mret a
  | inl e => raise e
  end.

(** [OpenAIEmbeddings.get_embedding] *)
Definition get_embedding (self : OpenAIEmbeddings) (text : string) : M (list Q) :=
  match client self with
  | None => raise (ValueError "OpenAI client not initialized - API key missing")
  | Some c =>
      let processed_text := tokenizer_preprocess ext text in
      try_except
        (embedding ← call (embeddings_create c (model_name self) processed_text (dimensions self));
         mret embedding)
        (λ e, mret (zero_vector (dimensions self)))
  end.

(** ** [lancedb_manager.py]: the hierarchical store and its indices *)

Record LanceDBManager := mkManager { embeddings : OpenAIEmbeddings }.

(** [df.iloc[0]] *)
Definition iloc0 {A : Type} (df : list A) : M A :=
  match df with
  | x :: _ => mret x
  | [] => raise (IndexError "single positional indexer is out-of-bounds")
  end.

(** [x in df[col].values] on a nullable string column. *)
Definition opt_str_eqb (a b : option string) : bool :=
  match a, b with
  | Some x, Some y => String.eqb x y
  | None, None => true
  | _, _ => false
  end.

(** [pa.Table.from_arrays(arrays, schema=...)] on the vector array: the
    list is cast to the fixed-size list of the schema, which fails on any
    other length. *)
Definition to_fixed_size_list (size : Z) (vector : list Q) : M (list Q) :=
  if Z.eqb (Z.of_nat (length vector)) size then mret vector
  else raise (mkExn "pyarrow.lib.ArrowInvalid" "list size does not match the fixed size").

(** [uuid.uuid4()] and [datetime.datetime.now().isoformat()] *)
Definition new_uuid : M string := λ w,
  (Ok (uuid4 ext (w_uuid w)),
   mkWorld (w_db w) (w_log w) (w_faults w) (S (w_uuid w)) (w_clock w)).
Definition now : M string := λ w,
  (Ok (now_isoformat ext (w_clock w)),
   mkWorld (w_db w) (w_log w) (w_faults w) (w_uuid w) (S (w_clock w))).

(** [LanceDBManager._get_pa_schema] *)
Definition _get_pa_schema (self : LanceDBManager) (table_name : string) : M (list Field) :=
  match assoc table_name SCHEMAS with
  | None => raise (ValueError ("Unknown table: " +:+ table_name))
  | Some columns =>
      mret (map (λ '(name, type_str),
                   if String.eqb type_str "list<float>" && String.eqb name "vector"
                   then mkField name (pa_list_float32 (Some (dimensions (embeddings self))))
                   else mkField name pa_string)
                columns)
  end.

(** [LanceDBManager.create_inverted_index] *)
Definition create_inverted_index (self : LanceDBManager) (table_name column_name : string)
    : M bool :=
  names ← table_names;
  if negb (str_in table_name names) then mret false
  else
    try_except
      (table ← open_table table_name;
       table_schema ← schema_of table;
       if negb (str_in column_name (map field_name table_schema)) then mret false
       else
         create_fts_index table column_name ;;
         mret true)
      (λ e, mret false).

(** [LanceDBManager.create_vector_index] *)
Definition create_vector_index (self : LanceDBManager) (table_name column_name : string)
    : M bool :=
  names ← table_names;
  if negb (str_in table_name names) then mret false
  else
    try_except
      (table ← open_table table_name;
       table_schema ← schema_of table;
       if negb (str_in column_name (map field_name table_schema)) then mret false
       else
         table_size ← count_rows table;
         if table_size <? 5 then mret false
         else
           let '(num_partitions, num_sub_vectors) :=
             if dimensions (embeddings self) >? 1000 then
               (Z.max (int_of_sqrt table_size) 2,
                Z.min (Z.max (int_of_div (dimensions (embeddings self)) 100) 4) 96)
             else
               (Z.max (int_of_sqrt table_size) 2,
                Z.max (int_of_div (dimensions (embeddings self)) 8) 4) in
           create_index table column_name
             (mkIndexSpec "cosine" num_partitions num_sub_vectors) ;;
           mret true)
      (λ e, mret false).

(** [LanceDBManager._create_or_update_inverted_indices] *)
Definition _create_or_update_inverted_indices (self : LanceDBManager) (table_name : string)
    : M unit :=
  match assoc table_name TEXT_COLUMNS_FOR_INDEX with
  | Some columns =>
      for_each columns (λ column_name,
        _ ← create_inverted_index self table_name column_name; mret tt)
  | None => mret tt
  end ;;
  match assoc table_name VECTOR_COLUMNS_FOR_INDEX with
  | Some columns =>
      for_each columns (λ column_name,
        _ ← create_vector_index self table_name column_name; mret tt)
  | None => mret tt
  end.

(** [LanceDBManager._ensure_table_exists] *)
Definition _ensure_table_exists (self : LanceDBManager) (tables : list string) : M unit :=
  for_each tables (λ table,
    names ← table_names;
    if negb (str_in table names) then
      schema ← _get_pa_schema self table;
      _ ← create_table table schema;
      _create_or_update_inverted_indices self table
    else
      _create_or_update_inverted_indices self table).

(** [LanceDBManager.__init__]: connect, build the embedding provider with
    its default model, make sure the three tables exist.  The schema of a
    table that is already there is not looked at. *)
Definition LanceDBManager_init : M LanceDBManager :=
  engine_call ;;                                  (* lancedb.connect(db_path) *)
  let self := mkManager OpenAIEmbeddings_default in
  _ensure_table_exists self (map fst SCHEMAS) ;;
  mret self.

(** [LanceDBManager.update_category] *)
Definition update_category (self : LanceDBManager) (category_id : string)
    (name description : option string) : M bool :=
  table ← open_table "categories";
  existing ← search_where (R := CategoryRow) table (PredEq "id" category_id);
  if Nat.eqb (length existing) 0 then
    raise (ValueError ("Category with id " +:+ category_id +:+ " not found"))
  else
    current ← iloc0 existing;
    let updated_name := if_truthy_else name (cat_name current) in
    _ ← _get_pa_schema self "categories";
    let category_data := [mkCategory category_id updated_name description] in
    delete (R := CategoryRow) table (PredEq "id" category_id) ;;
    add table category_data ;;
    mret true.

(** [LanceDBManager.delete_category] *)
Definition delete_category (self : LanceDBManager) (category_id : string) : M bool :=
  try_except
    (topics_table ← open_table "topics";
     category_topics ← search_where (R := TopicRow) topics_table
                         (PredEq "category_id" category_id);
     let topic_ids := map top_id category_topics in
     entries_table ← open_table "entries";
     match topic_ids with
     | _ :: _ =>
         topic_entries ← search_where (R := EntryRow) entries_table
                           (PredIn "topic_id" topic_ids);
         let entry_ids := map ent_id topic_entries in
         for_each entry_ids (λ entry_id,
           delete (R := EntryRow) entries_table (PredEq "id" entry_id))
     | [] => mret tt
     end ;;
     for_each topic_ids (λ topic_id,
       delete (R := TopicRow) topics_table (PredEq "id" topic_id)) ;;
     categories_table ← open_table "categories";
     delete (R := CategoryRow) categories_table (PredEq "id" category_id) ;;
     mret true)
    (λ e, mret false).

(** [LanceDBManager.update_topic] *)
Definition update_topic (self : LanceDBManager) (topic_id : string)
    (name description : option string) : M bool :=
  topic_table ← open_table "topics";
  existing ← search_where (R := TopicRow) topic_table (PredEq "id" topic_id);
  if Nat.eqb (length existing) 0 then
    raise (ValueError ("Topic with id " +:+ topic_id +:+ " not found"))
  else
    current ← iloc0 existing;
    let updated_name := if_truthy_else name (top_name current) in
    let updated_description := if_truthy_else description (top_description current) in
    _ ← _get_pa_schema self "topics";
    let topic_data :=
      [mkTopic topic_id (top_category_id current) updated_name updated_description] in
    delete (R := TopicRow) topic_table (PredEq "id" topic_id) ;;
    add topic_table topic_data ;;
    mret true.

(** [json.dumps(tags) if tags else json.dumps([])] *)
Definition dump_tags (tags : option (list string)) : string :=
  match tags with
  | Some (t :: ts) => json_dumps ext (t :: ts)
  | Some [] | None => json_dumps ext []
  end.

(** [LanceDBManager.create_entry] *)
Definition create_entry (self : LanceDBManager) (topic_id : string)
    (title content : option string) (tags : option (list string)) (source : string)
    (generate_embedding : bool) : M string :=
  topic_table ← open_table "topics";
  topic ← search_where (R := TopicRow) topic_table (PredEq "id" topic_id);
  if Nat.eqb (length topic) 0 then
    raise (ValueError ("Topic with id " +:+ topic_id +:+ " not found"))
  else
    entries_table ← open_table "entries";
    existing ← search_where (R := EntryRow) entries_table (PredEq "topic_id" topic_id);
    if Nat.ltb 0 (length existing) && existsb (opt_str_eqb title) (map ent_title existing) then
      raise (ValueError ("Entry with title '" +:+ fmt title +:+ "' already exists"))
    else
      let tags_json := dump_tags tags in
      vector ←
        match content with
        | Some text =>
            if generate_embedding && truthy content then
              try_except
                (get_embedding (embeddings self) text)
                (λ e, mret (zero_vector (dimensions (embeddings self))))
            else mret (zero_vector (dimensions (embeddings self)))
        | None => mret (zero_vector (dimensions (embeddings self)))
        end;
      entry_id ← new_uuid;
      created_at ← now;
      updated_at ← now;
      vector ← to_fixed_size_list (dimensions (embeddings self)) vector;
      let entry_data :=
        [mkEntry entry_id topic_id title content (Some tags_json) (Some created_at)
                 (Some updated_at) (Some vector) (Some source)] in
      add entries_table entry_data ;;
      _create_or_update_inverted_indices self "entries" ;;
      mret entry_id.

(** [LanceDBManager.update_entry] *)
Definition update_entry (self : LanceDBManager) (entry_id : string)
    (title content : option string) (tags : option (list string)) (source : option string)
    (generate_embedding : bool) : M bool :=
  entries_table ← open_table "entries";
  existing ← search_where (R := EntryRow) entries_table (PredEq "id" entry_id);
  if Nat.eqb (length existing) 0 then
    raise (ValueError ("Entry with id " +:+ entry_id +:+ " not found"))
  else
    current ← iloc0 existing;
    let updated_title := if_truthy_else title (ent_title current) in
    let updated_content :=
      match content with Some _ => content | None => ent_content current end in
    let updated_source :=
      match source with Some _ => source | None => ent_source current end in
    let updated_tags_json :=
      match tags with
      | None =>
          match ent_tags_json current with
          | Some s => s
          | None => json_dumps ext []
          end
      | Some ts => json_dumps ext ts
      end in
    let kept :=
      match ent_vector current with
      | Some v => v
      | None => zero_vector (dimensions (embeddings self))
      end in
    vector ←
      match content with
      | Some text =>
          if generate_embedding then
            try_except (get_embedding (embeddings self) text) (λ e, mret kept)
          else mret kept
      | None => mret kept
      end;
    updated_at ← now;
    vector ← to_fixed_size_list (dimensions (embeddings self)) vector;
    let entry_data :=
      [mkEntry entry_id (ent_topic_id current) updated_title updated_content
               (Some updated_tags_json) (ent_created_at current) (Some updated_at)
               (Some vector) updated_source] in
    delete (R := EntryRow) entries_table (PredEq "id" entry_id) ;;
    add entries_table entry_data ;;
    _create_or_update_inverted_indices self "entries" ;;
    mret true.

(** *** Retrieval *)

(** A full-text hit: the row as a dict, its [vector] key deleted, and the
    [score] taken from [_score]. *)
Record FulltextResult := mkFulltext { ft_row : EntryRow; ft_score : Q }.

Definition without_vector (r : EntryRow) : EntryRow :=
  mkEntry (ent_id r) (ent_topic_id r) (ent_title r) (ent_content r) (ent_tags_json r)
          (ent_created_at r) (ent_updated_at r) None (ent_source r).

(** A loop that threads one local variable through its iterations. *)
Fixpoint for_fold {A S : Type} (xs : list A) (init : S) (body : S -> A -> M S) : M S :=
  match xs with
  | [] => mret init
  | x :: xs' => s ← body init x; for_fold xs' s body
  end.

(** [LanceDBManager.search_table_fulltext] *)
Definition search_table_fulltext (self : LanceDBManager) (table_name query : string)
    (limit : nat) : M (list FulltextResult) :=
  names ← table_names;
  if negb (str_in table_name names) then mret []
  else
    table ← open_table table_name;
    has_fts_index ←
      match assoc table_name TEXT_COLUMNS_FOR_INDEX with
      | Some columns =>
          for_fold columns false (λ has_fts_index column_name,
            try_except
              (_ ← fts_search table query 1; mret true)
              (λ e, mret has_fts_index))
      | None => mret false
      end;
    if negb has_fts_index then mret []
    else
      try_except
        (results ← fts_search table query limit;
         mret (map (λ '(row, _score), mkFulltext (without_vector row) _score) results))
        (λ e, mret []).

(** One element of the list [search_entries] returns. *)
Record SearchResult := mkResult {
  sr_id : string;
  sr_title : option string;
  sr_content : option string;
  sr_score : Q;
  sr_source : option string;
  sr_topic_id : string;
  sr_topic_name : option string;
  sr_category_id : option string;
  sr_category_name : option string;
  sr_tags : list string
}.

(** [topics_df[topics_df["id"] == topic_id].iloc[0] if not topics_df.empty
    else None] *)
Definition lookup_topic (topics_df : list TopicRow) (topic_id : string)
    : M (option TopicRow) :=
  match topics_df with
  | _ :: _ =>
      topic_info ← iloc0 (List.filter (λ t, String.eqb (top_id t) topic_id) topics_df);
      mret (Some topic_info)
  | [] => mret None
  end.

(** [categories_df[categories_df["id"] == topic_info["category_id"]].iloc[0]
    if not categories_df.empty else None], under [if topic_info is not None] *)
Definition lookup_category (categories_df : list CategoryRow) (topic_info : option TopicRow)
    : M (option CategoryRow) :=
  match topic_info with
  | Some t =>
      match categories_df with
      | _ :: _ =>
          category_info ←
            iloc0 (List.filter (λ c, String.eqb (cat_id c) (top_category_id t))
                               categories_df);
          mret (Some category_info)
      | [] => mret None
      end
  | None => mret None
  end.

(** [json.loads(tags_json) if tags_json else []] *)
Definition load_tags (tags_json : option string) : M (list string) :=
  match tags_json with
  | Some s => if truthy tags_json then call (json_loads ext s) else mret []
  | None => mret []
  end.

(** The denormalisation both search paths apply to a row. *)
Definition enrich (topics_df : list TopicRow) (categories_df : list CategoryRow)
    (row : EntryRow) (score : Q) : M SearchResult :=
  topic_info ← lookup_topic topics_df (ent_topic_id row);
  category_info ← lookup_category categories_df topic_info;
  tags ← load_tags (ent_tags_json row);
  mret (mkResult (ent_id row) (ent_title row) (ent_content row) score (ent_source row)
          (ent_topic_id row)
          (match topic_info with Some t => top_name t | None => Some "Unknown" end)
          (match topic_info with Some t => Some (top_category_id t) | None => None end)
          (match category_info with Some c => cat_name c | None => Some "Unknown" end)
          tags).

(** The filter of the vector path: [f"topic_id = '{topic_id}'"], else
    [f"topic_id IN {topic_ids_str}"] over the topics of the category when
    there are any, else none. *)
Definition hierarchy_filter (category_id topic_id : option string) : M (option Pred) :=
  if truthy topic_id then mret (Some (PredEq "topic_id" (fmt topic_id)))
  else if truthy category_id then
    topics_table ← open_table "topics";
    topics ← search_where (R := TopicRow) topics_table
               (PredEq "category_id" (fmt category_id));
    let topic_ids := map top_id topics in
    match topic_ids with
    | _ :: _ => mret (Some (PredIn "topic_id" topic_ids))
    | [] => mret None
    end
  else mret None.

(** [LanceDBManager.search_entries] *)
Definition search_entries (self : LanceDBManager) (query : string) (limit : nat)
    (category_id topic_id : option string) : M (list SearchResult) :=
  try_except
    (fulltext_results ← search_table_fulltext self "entries" query limit;
     let has_fulltext_results := Nat.ltb 0 (length fulltext_results) in
     if has_fulltext_results && negb (truthy category_id || truthy topic_id) then
       topics_table ← open_table "topics";
       topics_df ← to_pandas (R := TopicRow) topics_table;
       categories_table ← open_table "categories";
       categories_df ← to_pandas (R := CategoryRow) categories_table;
       for_collect fulltext_results (λ result,
         enrich topics_df categories_df (ft_row result) (ft_score result))
     else
       query_embedding ← get_embedding (embeddings self) query;
       entries_table ← open_table "entries";
       where_ ← hierarchy_filter category_id topic_id;
       results ← vector_search (R := EntryRow) entries_table query_embedding where_ limit;
       topics_table ← open_table "topics";
       topics_df ← to_pandas (R := TopicRow) topics_table;
       categories_table ← open_table "categories";
       categories_df ← to_pandas (R := CategoryRow) categories_table;
       for_collect results (λ '(row, _distance),
         enrich topics_df categories_df row _distance))
    (λ e, mret []).

(** ** [knowledge_base.py]: the documents table *)

Record KnowledgeBase := mkKnowledgeBase {
  kb_embeddings : OpenAIEmbeddings;
  kb_table_name : string
}.

(** [verify_openai_embeddings]: the scratch database it builds and removes
    is not the store; only its engine calls are kept. *)
Definition verify_openai_embeddings : M bool :=
  try_except
    (let embeddings := OpenAIEmbeddings_default in
     match client embeddings with
     | None => mret false
     | Some _ =>
         engine_call ;;                           (* lancedb.connect(temp_db_path) *)
         try_except
           (engine_call ;;                        (* db.create_table("test", ...) *)
            embedding ← get_embedding embeddings
                          "This is a test document to verify OpenAI embeddings";
            engine_call ;;                        (* table.add([...]) *)
            _ ← to_fixed_size_list (dimensions embeddings) embedding;
            mret true)
           (λ e, mret false)
     end)
    (λ e, mret false).

(** [field.type.list_size] *)
Definition list_size_of (t : ArrowType) : M Z :=
  match t with
  | pa_list_float32 (Some n) => mret n
  | pa_list_float32 None =>
      raise (AttributeError "'pyarrow.lib.ListType' object has no attribute 'list_size'")
  | pa_string =>
      raise (AttributeError "'pyarrow.lib.DataType' object has no attribute 'list_size'")
  end.

(** The schema of the [Document] model. *)
Definition Document_schema (dims : Z) : list Field :=
  [ mkField "text" pa_string; mkField "vector" (pa_list_float32 (Some dims));
    mkField "source" pa_string; mkField "title" pa_string ].

(** [KnowledgeBase.__init__] *)
Definition KnowledgeBase_init (table_name : string) (create_if_not_exists : bool)
    : M KnowledgeBase :=
  verified ← verify_openai_embeddings;
  if negb verified then
    raise (RuntimeError "Failed to verify OpenAI embeddings connection")
  else
    engine_call ;;                                (* lancedb.connect(db_uri) *)
    let embeddings := OpenAIEmbeddings_default in
    table_names ← table_names;
    if str_in table_name table_names then
      try_except
        (table ← open_table table_name;
         table_schema ← schema_of table;
         match vector_field table_schema with
         | Some vector_field =>
             vector_dimensions ← list_size_of (field_type vector_field);
             if negb (Z.eqb vector_dimensions (dimensions embeddings)) then
               raise (RuntimeError
                 ("Vector dimensions mismatch: table has " +:+ pretty vector_dimensions
                  +:+ ", but model has " +:+ pretty (dimensions embeddings)
                  +:+ ". Use a model with matching dimensions."))
             else mret tt
         | None =>
             raise (RuntimeError
               "Could not determine vector dimensions from schema. Please check the database structure.")
         end ;;
         try_except (_ ← count_rows table; mret tt) (λ e, mret tt) ;;
         mret (mkKnowledgeBase embeddings table_name))
        (λ e, raise (RuntimeError
           ("Error opening existing table: " +:+ exn_msg e
            +:+ ". Please ensure database compatibility.")))
    else if create_if_not_exists then
      _ ← create_table table_name (Document_schema (dimensions embeddings));
      mret (mkKnowledgeBase embeddings table_name)
    else
      raise (RuntimeError
        ("Table " +:+ table_name
         +:+ " does not exist and create_if_not_exists is False. Please create the table first.")).

(** A dict with the keys [text], [title], [source] and [score]: the shape
    of the candidates the answer pipeline works on.  For each key, [None]
    says the key is missing, [Some None] that it is bound to [None]. *)
Record Candidate := mkCandidate {
  c_text : option (option string);
  c_title : option (option string);
  c_source : option (option string);
  c_score : option (option Q)
}.

(** [KnowledgeBase.search] *)
Definition KnowledgeBase_search (self : KnowledgeBase) (query : string) (limit : nat)
    : M (list Candidate) :=
  try_except
    (let processed_query := tokenizer_preprocess ext query in
     query_embedding ← get_embedding (kb_embeddings self) processed_query;
     results ← vector_search (R := DocRow) (kb_table_name self) query_embedding None limit;
     mret (map (λ '(row, _distance),
                  mkCandidate (Some (Some (doc_text row)))
                              (Some (if truthy (doc_title row) then doc_title row else None))
                              (Some (Some (doc_source row)))
                              (Some (Some _distance)))
               results))
    (λ e, mret []).

(** ** [qa_processor.py]: the answer pipeline *)

Definition nl : string := String (ascii_of_nat 10) EmptyString.
Definition dq : string := String (ascii_of_nat 34) EmptyString.

Record QAProcessor := mkQAProcessor {
  kb : option KnowledgeBase;
  db_manager : option LanceDBManager;
  qa_client : option OpenAIClient
}.

(** One element of [sources]. *)
Record Source := mkSource {
  src_title : option string;
  src_source : option string;
  src_text : option string;
  src_relevance_score : Q
}.

(** The dict the two [answer_question] functions return. *)
Record Answer := mkAnswer { answer : string; sources : list Source }.

(** [QAProcessor.__init__] *)
Definition QAProcessor_init (knowledge_base : option KnowledgeBase)
    (db_manager : option LanceDBManager) : QAProcessor :=
  mkQAProcessor knowledge_base db_manager None.

(** [QAProcessor._ensure_client_initialized]: the assignment to
    [self.client] is the returned processor. *)
Definition _ensure_client_initialized (self : QAProcessor) : QAProcessor :=
  match qa_client self with
  | None => mkQAProcessor (kb self) (db_manager self) (get_openai_client ext)
  | Some _ => self
  end.

(** [d.get(key, default)], [d[key]], and the use of a value as a float or
    as a string. *)
Definition dict_get {A : Type} (v : option (option A)) (default : option A) : option A :=
  match v with
  | Some x => x
  | None => default
  end.

Definition subscript {A : Type} (key : string) (v : option (option A)) : M (option A) :=
  match v with
  | Some x => mret x
  | None => raise (KeyError key)
  end.

Definition as_float (v : option Q) : M Q :=
  match v with
  | Some q => mret q
  | None => raise (TypeError "a float is required, not 'NoneType'")
  end.

Definition as_str (v : option string) : M string :=
  match v with
  | Some s => mret s
  | None => raise (AttributeError "'NoneType' object has no attribute 'lower'")
  end.

(** A list comprehension whose condition may raise. *)
Fixpoint filter_m {A : Type} (cond : A -> M bool) (xs : list A) : M (list A) :=
  match xs with
  | [] => mret []
  | x :: xs' =>
      keep ← cond x;
      rest ← filter_m cond xs';
      mret (if (keep : bool) then x :: rest else rest)
  end.

(** [QAProcessor.generate_search_query] *)
Definition generate_search_query (self : QAProcessor) (user_question : string)
    : M (QAProcessor * string) :=
  let self := _ensure_client_initialized self in
  match qa_client self with
  | None => mret (self, user_question)
  | Some c =>
      try_except
        (let prompt :=
           "Given this user question, generate a search query that would be effective for semantic search in a knowledge base." +:+ nl +:+
           "                    The query should:" +:+ nl +:+
           "                    1. Focus on the key concepts and entities" +:+ nl +:+
           "                    2. Remove unnecessary words and context" +:+ nl +:+
           "                    3. Be concise but maintain important details" +:+ nl +:+
           "                    4. Be optimized for semantic similarity search" +:+ nl +:+
           nl +:+
           "                    User question: " +:+ dq +:+ user_question +:+ dq +:+ nl +:+
           nl +:+
           "                    Respond with ONLY the search query, no other text." +:+ nl +:+
           "                " in
         response ← call (chat_completions_create c
                            (mkChat "gpt-4o-mini"
                                    "You are a search query optimization assistant."
                                    prompt (3 # 10) 100 15));
         let query := strip ext response in
         mret (self, query))
        (λ e, mret (self, user_question))
  end.

(** The names bound in [qa_processor.py] and in the body of
    [answer_question]; no builtin is called [s]. *)
Definition qa_module_names : list string :=
  [ "os"; "time"; "traceback"; "List"; "Dict"; "Optional"; "OpenAI"; "load_dotenv";
    "logging"; "KnowledgeBase"; "sys"; "Path"; "re"; "parent_dir"; "LanceDBManager";
    "logger"; "get_openai_client"; "QAProcessor" ].

Definition answer_question_locals : list string :=
  [ "self"; "user_question"; "max_results"; "relevance_threshold"; "start_time";
    "query_start_time"; "search_query"; "query_time"; "search_results";
    "entries_start_time"; "entry_results"; "entries_time"; "result";
    "search_start_time"; "kb_results"; "search_time"; "filtered_results" ].

(** An expression statement made of one name. *)
Definition load_name (name : string) : M unit :=
  if str_in name (answer_question_locals ++ qa_module_names) then mret tt
  else raise (NameError name).

Definition no_information : Answer :=
  mkAnswer "I couldn't find any relevant information in the knowledge base to answer your question." [].

(** The dict built from one result of [search_entries]. *)
Definition candidate_of_result (result : SearchResult) : Candidate :=
  mkCandidate (Some (sr_content result)) (Some (sr_title result))
              (Some (sr_source result)) (Some (Some (sr_score result))).

(** Step 2 of [answer_question]: the entries table, then the documents
    table when that gave nothing. *)
Definition retrieve (self : QAProcessor) (search_query : string) (max_results : nat)
    : M (list Candidate) :=
  search_results ←
    match db_manager self with
    | Some m =>
        entry_results ← search_entries m search_query max_results None None;
        mret (map candidate_of_result entry_results)
    | None => mret []
    end;
  match search_results, kb self with
  | [], Some k =>
      kb_results ← KnowledgeBase_search k search_query max_results;
      match kb_results with
      | _ :: _ => mret kb_results
      | [] => mret search_results
      end
  | _, _ => mret search_results
  end.

(** Step 3 of [answer_question]: the relevance filter and its fallback. *)
Definition select_results (search_results : list Candidate) (relevance_threshold : Q)
    : M (list Candidate) :=
  filtered_results ←
    filter_m (λ result,
                score ← subscript "score" (c_score result);
                score ← as_float score;
                mret (Qltb score relevance_threshold))
             search_results;
  match filtered_results, search_results with
  | [], _ :: _ => mret (take 2 search_results)
  | _, _ => mret filtered_results
  end.

(** The body of the loop of step 4. *)
Definition format_result (result : Candidate) : M (string * Source) :=
  let title := if_truthy_else (dict_get (c_title result) None) (Some "Untitled") in
  let source := if_truthy_else (dict_get (c_source result) None) (Some "Unknown") in
  score ← subscript "score" (c_score result);
  score ← as_float score;
  text ← subscript "text" (c_text result);
  mret ("Content: " +:+ fmt text +:+ nl +:+ "Source: " +:+ fmt title +:+ " ("
          +:+ fmt source +:+ ")" +:+ nl,
        mkSource title source text score).

(** [filtered_results[0]['text']] inside an f-string *)
Definition first_text (filtered_results : list Candidate) : M string :=
  first ← iloc0 filtered_results;
  text ← subscript "text" (c_text first);
  mret (fmt text).

Definition system_prompt : string :=
  "You are a knowledgeable assistant that provides accurate answers based on available information.".

(** [QAProcessor.answer_question] *)
Definition answer_question (self : QAProcessor) (user_question : string) (max_results : nat)
    (relevance_threshold : Q) : M Answer :=
  try_except
    (let self := _ensure_client_initialized self in
     '(self, search_query) ← generate_search_query self user_question;
     search_results ← retrieve self search_query max_results;
     match search_results with
     | [] => mret no_information
     | _ :: _ =>
         filtered_results ← select_results search_results relevance_threshold;
         match filtered_results with
         | [] => mret no_information
         | _ :: _ =>
             load_name "s" ;;
             formatted ← for_collect filtered_results format_result;
             let context := map fst formatted in
             let sources := map snd formatted in
             answer ←
               match qa_client self with
               | Some c =>
                   let prompt :=
                     "Based on the following information from a knowledge base, answer the user's question." +:+ nl +:+
                     "If the information is not sufficient to answer the question completely, say so." +:+ nl +:+
                     "Include specific references to sources when possible." +:+ nl +:+ nl +:+
                     "User question: " +:+ user_question +:+ nl +:+ nl +:+
                     "Knowledge base information:" +:+ nl +:+
                     String.concat nl context +:+ nl +:+ nl +:+
                     "Provide a clear and concise answer that directly addresses the user's question." in
                   try_except
                     (response ← call (chat_completions_create c
                                         (mkChat "gpt-4o-mini" system_prompt prompt
                                                 (7 # 10) 500 30));
                      mret (strip ext response))
                     (λ api_error,
                        text ← first_text filtered_results;
                        mret ("API Error: " +:+ exn_msg api_error +:+ nl +:+ nl +:+
                              "Here is the most relevant information I found:" +:+ nl +:+ nl
                              +:+ text))
               | None =>
                   text ← first_text filtered_results;
                   mret ("Here is the most relevant information I found:" +:+ nl +:+ nl
                         +:+ text)
               end;
             mret (mkAnswer answer sources)
         end
     end)
    (λ e, mret (mkAnswer
                  ("An error occurred while processing your question: " +:+ exn_msg e) [])).

(** [a == b] on two candidate dicts. *)
Definition key_eqb {A : Type} (eqb : A -> A -> bool) (a b : option (option A)) : bool :=
  match a, b with
  | Some (Some x), Some (Some y) => eqb x y
  | Some None, Some None => true
  | None, None => true
  | _, _ => false
  end.

Definition candidate_eqb (a b : Candidate) : bool :=
  key_eqb String.eqb (c_text a) (c_text b)
  && key_eqb String.eqb (c_title a) (c_title b)
  && key_eqb String.eqb (c_source a) (c_source b)
  && key_eqb Qeq_bool (c_score a) (c_score b).

(** ['score' in doc] *)
Definition has_score (doc : Candidate) : bool :=
  match c_score doc with
  | Some _ => true
  | None => false
  end.

(** [doc.get('score', default)] used as a number. *)
Definition score_or (default : Q) (doc : Candidate) : M Q :=
  as_float (dict_get (c_score doc) (Some default)).

(** [sorted(docs, key=lambda x: x.get('score', 2.0))] *)
Definition sorted_by_score (docs : list Candidate) : M (list Candidate) :=
  keyed ← for_collect docs (λ doc, score ← score_or 2 doc; mret (doc, score));
  mret (map fst (sort_by (ascending snd) keyed)).

(** The relevance filter of [answer_question_with_docs], its fallback and
    its top-up. *)
Definition select_docs (docs : list Candidate) (relevance_threshold : Q)
    : M (list Candidate) :=
  if forallb has_score docs then
    filtered_docs ←
      filter_m (λ doc, score ← score_or 2 doc; mret (Qltb score relevance_threshold)) docs;
    match filtered_docs with
    | [] =>
        sorted_docs ← sorted_by_score docs;
        mret (take 5 sorted_docs)
    | _ :: _ =>
        if Nat.ltb (length filtered_docs) 3 && Nat.ltb (length filtered_docs) (length docs)
        then
          let remaining_docs :=
            List.filter (λ doc, negb (existsb (candidate_eqb doc) filtered_docs)) docs in
          sorted_remaining ← sorted_by_score remaining_docs;
          let additional_docs := take (3 - length filtered_docs)%nat sorted_remaining in
          mret (filtered_docs ++ additional_docs)
        else mret filtered_docs
    end
  else mret (take 8 docs).

(** The body of the loop that builds [context] and [sources]. *)
Definition format_doc (doc : Candidate) : M (string * Source) :=
  let title := dict_get (c_title doc) (Some "Untitled") in
  let source := dict_get (c_source doc) (Some "Unknown") in
  let text := dict_get (c_text doc) (Some "") in
  score ← score_or 0 doc;
  mret ("Content: " +:+ fmt text +:+ nl +:+ "Source: " +:+ fmt title +:+ " ("
          +:+ fmt source +:+ ")" +:+ nl,
        mkSource title source text score).

(** [filtered_docs[0].get('text', '')] inside an f-string *)
Definition first_doc_text (filtered_docs : list Candidate) : M string :=
  first ← iloc0 filtered_docs;
  mret (fmt (dict_get (c_text first) (Some ""))).

(** [QAProcessor.answer_question_with_docs] *)
Definition answer_question_with_docs (self : QAProcessor) (user_question : string)
    (docs : list Candidate) (relevance_threshold : Q) : M Answer :=
  try_except
    (let self := _ensure_client_initialized self in
     match docs with
     | [] =>
         mret (mkAnswer "I couldn't find any relevant information to answer your question." [])
     | _ :: _ =>
         (* the logging loop: [text.lower()] needs a string *)
         for_each docs (λ doc, _ ← as_str (dict_get (c_text doc) (Some "")); mret tt) ;;
         filtered_docs ← select_docs docs relevance_threshold;
         formatted ← for_collect filtered_docs format_doc;
         let context := map fst formatted in
         let sources := map snd formatted in
         answer ←
           match qa_client self with
           | Some c =>
               let prompt :=
                 "Based on the following information from a knowledge base, please answer the user's question." +:+ nl +:+
                 "If the information is not sufficient to answer the question completely, say so." +:+ nl +:+
                 "If the information is contradictory, explain the different perspectives." +:+ nl +:+
                 "Include specific references to sources when possible." +:+ nl +:+ nl +:+
                 "User question: " +:+ user_question +:+ nl +:+ nl +:+
                 "Knowledge base information:" +:+ nl +:+
                 String.concat nl context +:+ nl +:+ nl +:+
                 "Provide a clear and concise answer that directly addresses the user's question." in
               try_except
                 (response ← call (chat_completions_create c
                                     (mkChat "gpt-4o-mini" system_prompt prompt
                                             (7 # 10) 500 30));
                  mret (strip ext response))
                 (λ api_error,
                    text ← first_doc_text filtered_docs;
                    mret ("API Error: " +:+ exn_msg api_error +:+ nl +:+ nl +:+
                          "Here is the most relevant information I found:" +:+ nl +:+ nl
                          +:+ text))
           | None =>
               text ← first_doc_text filtered_docs;
               mret ("Here is the most relevant information I found:" +:+ nl +:+ nl +:+ text)
           end;
         mret (mkAnswer answer sources)
     end)
    (λ e, mret (mkAnswer
                  ("An error occurred while processing your question: " +:+ exn_msg e) [])).

End Model.

(** ** The index parameter policy, in the words of the specification *)

Definition clamp (x lo hi : Z) : Z := Z.min (Z.max x lo) hi.

(** [numPartitions = max(floor(sqrt(rowCount)), 2)] *)
Definition spec_num_partitions (rowCount : Z) : Z := Z.max (Z.sqrt rowCount) 2.

(** [numSubVectors]: [clamp(floor(W/100), 4, 96)] for [W > 1000],
    [max(floor(W/8), 4)] otherwise. *)
Definition spec_num_sub_vectors (W : Z) : Z :=
  if W >? 1000 then clamp (W / 100) 4 96 else Z.max (W / 8) 4.

Definition spec_index (rowCount W : Z) : IndexSpec :=
  mkIndexSpec "cosine" (spec_num_partitions rowCount) (spec_num_sub_vectors W).

(** ** Sample providers and stores for the examples *)

Definition api_error : Exn := mkExn "openai.APIConnectionError" "Connection error.".

Definition sample_client (embedding : list Q) : OpenAIClient :=
  mkClient (λ _ _ _, inr embedding) (λ _, inr "The deploy cadence is weekly.").

Definition failing_client : OpenAIClient :=
  mkClient (λ _ _ _, inl api_error) (λ _, inl api_error).

Definition sample_ext (c : option OpenAIClient) : Externals :=
  mkExternals c c (λ s, s) (λ _, "[]") (λ _, inr []) (λ n, "id-" +:+ pretty n)
              (λ n, "2025-01-01T00:00:0" +:+ pretty n) (λ _ _, Some 1%Q)
              (λ _ _, (6 # 10)%Q) (λ s, s).

Definition categories_schema : list Field :=
  [ mkField "id" pa_string; mkField "name" pa_string; mkField "description" pa_string ].

Definition topics_schema : list Field :=
  [ mkField "id" pa_string; mkField "category_id" pa_string; mkField "name" pa_string;
    mkField "description" pa_string ].

Definition entries_schema (dims : Z) : list Field :=
  [ mkField "id" pa_string; mkField "topic_id" pa_string; mkField "title" pa_string;
    mkField "content" pa_string; mkField "tags_json" pa_string;
    mkField "created_at" pa_string; mkField "updated_at" pa_string;
    mkField "vector" (pa_list_float32 (Some dims)); mkField "source" pa_string ].

(** A store with the three tables, [entries] of vector width [dims] and with
    full-text indices on the columns [fts]. *)
Definition sample_world (dims : Z) (fts : list string) (cats : list CategoryRow)
    (tops : list TopicRow) (ents : list EntryRow) : World :=
  mkWorld
    (mkDB (<["categories" := mkMeta categories_schema [] []]>
             (<["topics" := mkMeta topics_schema [] []]>
                (<["entries" := mkMeta (entries_schema dims) fts []]> ∅)))
          cats tops ents [])
    [] [] 0 0.

Definition sample_manager (c : option OpenAIClient) (dims : Z) : LanceDBManager :=
  mkManager (mkEmbeddings "text-embedding-3-small" c dims).

Definition sample_entry (id topic_id title content : string) (vector : list Q) : EntryRow :=
  mkEntry id topic_id (Some title) (Some content) (Some "[]")
          (Some "2024-12-31T00:00:00") (Some "2024-12-31T00:00:00") (Some vector)
          (Some "manual").

(** [e] is a full-text query. *)
Definition is_fts_search (e : Event) : bool :=
  match e with
  | EvFtsSearch _ _ _ => true
  | _ => false
  end.

(** The error [KnowledgeBase.__init__] raises on a table of width [n] under
    a model of width [W]: the mismatch, wrapped by the handler around the
    opening of the table. *)
Definition width_mismatch (n W : Z) : Exn :=
  RuntimeError
    ("Vector dimensions mismatch: table has " +:+ pretty n +:+ ", but model has "
     +:+ pretty W +:+ ". Use a model with matching dimensions.").

Definition dimension_mismatch (n W : Z) : Exn :=
  RuntimeError
    ("Error opening existing table: " +:+ exn_msg (width_mismatch n W)
     +:+ ". Please ensure database compatibility.").

(** ** The relevance fallback, in terms of the candidates *)

(** [doc.get('score', 2.0)] *)
Definition score_of (doc : Candidate) : Q :=
  match c_score doc with
  | Some (Some s) => s
  | _ => 2
  end.

(** The docs by ascending score, ties in their given order. *)
Definition lowest_scores_first (docs : list Candidate) : list Candidate :=
  sort_by (ascending score_of) docs.

(** The element of [sources] made from a doc that carries a score. *)
Definition source_of_doc (doc : Candidate) : Source :=
  mkSource (dict_get (c_title doc) (Some "Untitled"))
           (dict_get (c_source doc) (Some "Unknown"))
           (dict_get (c_text doc) (Some ""))
           (score_of doc).

(** Every doc has a float score and none is below the threshold. *)
Definition none_relevant (relevance_threshold : Q) (docs : list Candidate) : Prop :=
  Forall (λ doc, ∃ s, c_score doc = Some (Some s) ∧ Qltb s relevance_threshold = false) docs.

Definition sample_doc (title : string) (score : Q) : Candidate :=
  mkCandidate (Some (Some ("About " +:+ title))) (Some (Some title)) (Some (Some "manual"))
              (Some (Some score)).

(** A small hierarchy: the category Work with the topic Meetings and one
    entry, and a second topic of another category with its own entry. *)
Definition work : CategoryRow := mkCategory "c1" (Some "Work") (Some "Job notes").
Definition home : CategoryRow := mkCategory "c2" (Some "Home") (Some "Private notes").
Definition meetings : TopicRow := mkTopic "t1" "c1" (Some "Meetings") (Some "Weekly syncs").
Definition garden : TopicRow := mkTopic "t2" "c2" (Some "Garden") (Some "Plants").
Definition standup : EntryRow :=
  sample_entry "e1" "t1" "Standup notes" "deploy cadence is weekly" [1%Q; 0%Q].
Definition roses : EntryRow :=
  sample_entry "e2" "t2" "Roses" "prune in early spring" [0%Q; 1%Q].

Definition embedder : OpenAIClient := sample_client [(1 # 2)%Q; (1 # 2)%Q].

(** The hierarchy over a store of width 2, with or without the full-text
    indices. *)
Definition small_store (fts : list string) : World :=
  sample_world 2 fts [work; home] [meetings; garden] [standup; roses].

(** The same entries, the topic of the first one missing from [topics]. *)
Definition orphan_store : World :=
  sample_world 2 [] [work; home] [garden] [standup; roses].

(** The same entries over empty [topics] and [categories] tables. *)
Definition bare_store : World :=
  sample_world 2 [] [] [] [standup; roses].

(** A store whose [entries] and [documents] tables have width 1536. *)
Definition narrow_store : World :=
  set_db (set_tables (insert "documents" (mkMeta (Document_schema 1536) [] [])))
         (sample_world 1536 [] [work] [meetings] []).

Definition three_docs : list Candidate :=
  [ sample_doc "A" (6 # 10); sample_doc "B" (6 # 10); sample_doc "C" (6 # 10) ].

(** ** Vocabulary of the properties *)

(** [frames I m]: whatever [m] does, returning or raising, the world it
    leaves is related by [I] to the one it started in. *)

Definition frames {A : Type} (I : World → World → Prop) (m : M A) : Prop :=
  ∀ w r w', m w = (r, w') → I w w'.


(** Nothing but the fault schedule moved. *)
Definition untouched (w w' : World) : Prop :=
  w_db w' = w_db w ∧ w_log w' = w_log w.

(** The database is as it was and the trace only got longer. *)
Definition read_only (w w' : World) : Prop :=
  w_db w' = w_db w ∧ ∃ l, w_log w' = w_log w ++ l.

(** A healthy engine stays healthy and no table goes away. *)
Definition calm (w w' : World) : Prop :=
  (w_faults w = [] → w_faults w' = [])
  ∧ ∀ name, is_Some (db_tables (w_db w) !! name) → is_Some (db_tables (w_db w') !! name).

(** The engine answers and the three tables of the hierarchy are there. *)
Definition ready (w : World) : Prop :=
  w_faults w = []
  ∧ ∀ name, In name ["categories"; "topics"; "entries"] →
            is_Some (db_tables (w_db w) !! name).

(** From a ready world [m] returns, with a value that satisfies [Q]. *)
Definition returns {A : Type} (Q : A → Prop) (m : M A) : Prop :=
  ∀ w, ready w → ∃ a w', m w = (Ok a, w') ∧ Q a.

Definition any {A : Type} (a : A) : Prop := True.

(** The rows of every table are as they were. *)
Definition rows_kept (w w' : World) : Prop :=
  db_categories (w_db w') = db_categories (w_db w)
  ∧ db_topics (w_db w') = db_topics (w_db w)
  ∧ db_entries (w_db w') = db_entries (w_db w)
  ∧ db_documents (w_db w') = db_documents (w_db w).


(** The ids [delete_category] collects before it deletes anything. *)
Definition topics_under (category_id : string) (d : DB) : list string :=
  map top_id (List.filter (λ t, String.eqb (top_category_id t) category_id) (db_topics d)).

Definition entries_under (topic_ids : list string) (d : DB) : list string :=
  map ent_id (List.filter (λ e, str_in (ent_topic_id e) topic_ids) (db_entries d)).

(** What the provider's answer becomes inside [get_embedding]. *)
Definition embedding_or_zeros (ext : Externals) (self : OpenAIEmbeddings) (c : OpenAIClient)
    (text : string) : list Q :=
  match embeddings_create c (model_name self) (tokenizer_preprocess ext text)
                          (dimensions self) with
  | inr embedding => embedding
  | inl _ => zero_vector (dimensions self)
  end.

(** The vector [update_entry] writes. *)
Definition updated_vector (ext : Externals) (self : LanceDBManager) (current : EntryRow)
    (content : option string) (generate_embedding : bool) : list Q :=
  let kept :=
    match ent_vector current with
    | Some v => v
    | None => zero_vector (dimensions (embeddings self))
    end in
  match content, client (embeddings self) with
  | Some text, Some c =>
      if generate_embedding then embedding_or_zeros ext (embeddings self) c text else kept
  | _, _ => kept
  end.

(** The vector [create_entry] writes. *)
Definition created_vector (ext : Externals) (self : LanceDBManager)
    (content : option string) (generate_embedding : bool) : list Q :=
  match content, client (embeddings self) with
  | Some text, Some c =>
      if generate_embedding && truthy content
      then embedding_or_zeros ext (embeddings self) c text
      else zero_vector (dimensions (embeddings self))
  | _, _ => zero_vector (dimensions (embeddings self))
  end.

(** What a row returned through the vector path satisfies, for a request
    with hierarchy filter [category_id], [topic_id]. *)
Definition vector_hit (ext : Externals) (self : LanceDBManager) (query : string)
    (category_id topic_id : option string) (d : DB) (r : SearchResult) : Prop :=
  ∃ row v c,
    In row (db_entries d)
    ∧ sr_id r = ent_id row
    ∧ sr_topic_id r = ent_topic_id row
    ∧ ent_vector row = Some v
    ∧ client (embeddings self) = Some c
    ∧ sr_score r = vector_distance ext (embedding_or_zeros ext (embeddings self) c query) v
    ∧ (truthy topic_id = true → sr_topic_id r = fmt topic_id)
    ∧ (truthy topic_id = false → truthy category_id = true →
       topics_under (fmt category_id) d ≠ [] →
       In (sr_topic_id r) (topics_under (fmt category_id) d)).

(** * Properties *)

(** ** Reasoning in the monad *)

Lemma bind_unfold {A B : Type} (m : M A) (f : A → M B) (w : World) :
  (m ≫= f) w = match m w with
               | (Ok a, w') => f a w'
               | (Raise e, w') => (Raise e, w')
               end.
Proof. reflexivity. Qed.

Lemma ret_bind {A B : Type} (a : A) (f : A → M B) (w : World) : (mret a ≫= f) w = f a w.
Proof. reflexivity. Qed.

Lemma bind_ok {A B : Type} (m : M A) (f : A → M B) (w w1 : World) (a : A) :
  m w = (Ok a, w1) → (m ≫= f) w = f a w1.
Proof. intros E. rewrite bind_unfold, E. reflexivity. Qed.

Lemma bind_raise {A B : Type} (m : M A) (f : A → M B) (w w1 : World) (e : Exn) :
  m w = (Raise e, w1) → (m ≫= f) w = (Raise e, w1).
Proof. intros E. rewrite bind_unfold, E. reflexivity. Qed.

Lemma bind_ok_inv {A B : Type} (m : M A) (f : A → M B) (w w' : World) (b : B) :
  (m ≫= f) w = (Ok b, w') → ∃ a w1, m w = (Ok a, w1) ∧ f a w1 = (Ok b, w').
Proof.
  rewrite bind_unfold. destruct (m w) as [[a|e] w1]; intros E.
  - exists a, w1. split; [reflexivity | exact E].
  - discriminate E.
Qed.

Lemma try_ok {A : Type} (m : M A) (h : Exn → M A) (w w1 : World) (a : A) :
  m w = (Ok a, w1) → try_except m h w = (Ok a, w1).
Proof. intros E. unfold try_except. rewrite E. reflexivity. Qed.

Lemma try_raise {A : Type} (m : M A) (h : Exn → M A) (w w1 : World) (e : Exn) :
  m w = (Raise e, w1) → try_except m h w = h e w1.
Proof. intros E. unfold try_except. rewrite E. reflexivity. Qed.

Lemma str_in_elem_of (x : string) (xs : list string) : str_in x xs = true ↔ x ∈ xs.
Proof.
  unfold str_in. rewrite existsb_exists. split.
  - intros (y & Hy & E). apply String.eqb_eq in E. subst y. by apply list_elem_of_In.
  - intros Hx. exists x. split; [by apply list_elem_of_In | apply String.eqb_refl].
Qed.

Lemma str_in_table_names (d : DB) (name : string) :
  str_in name (elements (dom (db_tables d))) = true ↔ is_Some (db_tables d !! name).
Proof. rewrite str_in_elem_of, elem_of_elements. apply elem_of_dom. Qed.

Lemma get_db_eq (w : World) : get_db w = (Ok (w_db w), w).
Proof. reflexivity. Qed.

(** *** A healthy engine answers every call *)

Section Healthy.
Variable w : World.
Hypothesis healthy : w_faults w = [].

Lemma engine_call_healthy : engine_call w = (Ok tt, w).
Proof. unfold engine_call. rewrite healthy. reflexivity. Qed.

Lemma table_names_healthy :
  table_names w = (Ok (elements (dom (db_tables (w_db w)))), w).
Proof. unfold table_names. rewrite (bind_ok _ _ _ _ _ engine_call_healthy). reflexivity. Qed.

Lemma open_table_healthy (name : string) (tm : TableMeta) :
  db_tables (w_db w) !! name = Some tm → open_table name w = (Ok name, w).
Proof.
  intros E. unfold open_table. rewrite (bind_ok _ _ _ _ _ engine_call_healthy).
  rewrite (bind_ok _ _ _ _ _ (get_db_eq w)), E. reflexivity.
Qed.

Lemma meta_of_found (name : string) (tm : TableMeta) :
  db_tables (w_db w) !! name = Some tm → meta_of name w = (Ok tm, w).
Proof.
  intros E. unfold meta_of. rewrite (bind_ok _ _ _ _ _ (get_db_eq w)), E. reflexivity.
Qed.

Lemma schema_of_healthy (name : string) (tm : TableMeta) :
  db_tables (w_db w) !! name = Some tm → schema_of name w = (Ok (tm_schema tm), w).
Proof.
  intros E. unfold schema_of. rewrite (bind_ok _ _ _ _ _ engine_call_healthy).
  rewrite (bind_ok _ _ _ _ _ (meta_of_found _ _ E)). reflexivity.
Qed.

Lemma count_rows_healthy (name : string) (tm : TableMeta) :
  db_tables (w_db w) !! name = Some tm →
  count_rows name w = (Ok (rows_in (w_db w) name), w).
Proof.
  intros E. unfold count_rows. rewrite (bind_ok _ _ _ _ _ engine_call_healthy).
  rewrite (bind_ok _ _ _ _ _ (meta_of_found _ _ E)). reflexivity.
Qed.

Lemma create_index_healthy (name column : string) (spec : IndexSpec) (tm : TableMeta) :
  db_tables (w_db w) !! name = Some tm →
  create_index name column spec w =
    (Ok tt, add_log (EvVectorIndex name column spec)
              (set_db (set_tables (insert name (add_index column spec tm))) w)).
Proof.
  intros E. unfold create_index. rewrite (bind_ok _ _ _ _ _ engine_call_healthy).
  rewrite (bind_ok _ _ _ _ _ (meta_of_found _ _ E)). reflexivity.
Qed.
End Healthy.

(** *** The arithmetic of the index parameters *)

Lemma int_of_div_max (a b lo : Z) : 0 < b → 0 < lo →
  Z.max (int_of_div a b) lo = Z.max (a / b) lo.
Proof.
  intros Hb Hlo. unfold int_of_div. destruct (Z.le_gt_cases 0 a) as [Ha|Ha].
  - rewrite Z.quot_div_nonneg by lia. reflexivity.
  - assert (Z.quot a b <= 0) by (apply Z.quot_le_upper_bound; lia || (apply Z.quot_le_upper_bound; lia)).
    assert (a / b < 0) by (apply Z.div_lt_upper_bound; lia).
    lia.
Qed.

Lemma index_parameters (table_size dims : Z) :
  (if dims >? 1000 then
     (Z.max (int_of_sqrt table_size) 2, Z.min (Z.max (int_of_div dims 100) 4) 96)
   else
     (Z.max (int_of_sqrt table_size) 2, Z.max (int_of_div dims 8) 4))
  = (spec_num_partitions table_size, spec_num_sub_vectors dims).
Proof.
  unfold spec_num_partitions, spec_num_sub_vectors, clamp, int_of_sqrt.
  destruct (dims >? 1000); rewrite int_of_div_max by lia; reflexivity.
Qed.

(** ** The vector index *)

(** C7. On an existing table with the column, [rowCount] rows and embedding
    width [W], with the engine answering: below 5 rows
    [create_vector_index] builds nothing and returns [False]; from 5 rows on
    it asks the engine for one index with
    [max(floor(sqrt(rowCount)), 2)] partitions, [clamp(floor(W/100), 4, 96)]
    sub-vectors when [W > 1000] and [max(floor(W/8), 4)] otherwise, under
    the cosine distance, and returns [True]. *)
Theorem create_vector_index_policy
    (self : LanceDBManager) (w : World) (table_name column_name : string) (tm : TableMeta) :
  w_faults w = [] →
  db_tables (w_db w) !! table_name = Some tm →
  str_in column_name (map field_name (tm_schema tm)) = true →
  let rowCount := rows_in (w_db w) table_name in
  let W := dimensions (embeddings self) in
  (rowCount < 5 → create_vector_index self table_name column_name w = (Ok false, w))
  ∧ (5 ≤ rowCount →
     create_vector_index self table_name column_name w =
       (Ok true,
        add_log (EvVectorIndex table_name column_name (spec_index rowCount W))
          (set_db (set_tables
                     (insert table_name (add_index column_name (spec_index rowCount W) tm)))
                  w))).
Proof.
  intros healthy Htm Hcol rowCount W.
  assert (Hnames : str_in table_name (elements (dom (db_tables (w_db w)))) = true)
    by (apply str_in_table_names; eauto).
  unfold create_vector_index.
  rewrite (bind_ok _ _ _ _ _ (table_names_healthy w healthy)), Hnames. cbn [negb].
  split; intros Hrows.
  - apply try_ok.
    rewrite (bind_ok _ _ _ _ _ (open_table_healthy w healthy _ _ Htm)).
    rewrite (bind_ok _ _ _ _ _ (schema_of_healthy w healthy _ _ Htm)), Hcol. cbn [negb].
    rewrite (bind_ok _ _ _ _ _ (count_rows_healthy w healthy _ _ Htm)).
    fold rowCount. destruct (Z.ltb_spec rowCount 5); [reflexivity | lia].
  - apply try_ok.
    rewrite (bind_ok _ _ _ _ _ (open_table_healthy w healthy _ _ Htm)).
    rewrite (bind_ok _ _ _ _ _ (schema_of_healthy w healthy _ _ Htm)), Hcol. cbn [negb].
    rewrite (bind_ok _ _ _ _ _ (count_rows_healthy w healthy _ _ Htm)).
    fold rowCount. destruct (Z.ltb_spec rowCount 5); [lia |].
    fold W. rewrite index_parameters.
    rewrite (bind_ok _ _ _ _ _ (create_index_healthy w healthy _ _ _ _ Htm)).
    reflexivity.
Qed.

(** ** What a successful engine call did *)

Ltac inv_bind H :=
  let a := fresh "a" in
  let w1 := fresh "w" in
  let H1 := fresh "H" in
  apply bind_ok_inv in H; destruct H as (a & w1 & H1 & H).

Tactic Notation "bind_inv" hyp(H) "as" ident(a) ident(w1) ident(H1) :=
  apply bind_ok_inv in H; destruct H as (a & w1 & H1 & H).

Lemma ret_inv {A : Type} (a b : A) (w w' : World) :
  (mret a : M A) w = (Ok b, w') → b = a ∧ w' = w.
Proof. intros [= -> ->]. auto. Qed.

Lemma engine_call_frame (w w' : World) (r : Outcome unit) :
  engine_call w = (r, w') →
  w_db w' = w_db w ∧ w_log w' = w_log w ∧ w_uuid w' = w_uuid w ∧ w_clock w' = w_clock w.
Proof.
  unfold engine_call. destruct (w_faults w) as [|[] fs]; intros [= <- <-]; auto.
Qed.

Lemma meta_of_inv (h : string) (w w' : World) (tm : TableMeta) :
  meta_of h w = (Ok tm, w') → w' = w ∧ db_tables (w_db w) !! h = Some tm.
Proof.
  unfold meta_of. rewrite (bind_ok _ _ _ _ _ (get_db_eq w)).
  destruct (db_tables (w_db w) !! h); [intros [= -> ->]; auto | discriminate].
Qed.

Lemma open_table_inv (name h : string) (w w' : World) :
  open_table name w = (Ok h, w') →
  h = name ∧ is_Some (db_tables (w_db w) !! name)
  ∧ w_db w' = w_db w ∧ w_log w' = w_log w.
Proof.
  unfold open_table. intros H. inv_bind H.
  apply engine_call_frame in H0 as (Hdb & Hlog & _).
  rewrite (bind_ok _ _ _ _ _ (get_db_eq _)) in H. rewrite Hdb in H.
  destruct (db_tables (w_db w) !! name) eqn:E; [|discriminate].
  apply ret_inv in H as [-> ->]. eauto.
Qed.

Section TypedInversion.
Context {R : Type} `{RowTable R}.

Lemma typed_inv (h : string) (w w' : World) (tm : TableMeta) :
  typed (R := R) h w = (Ok tm, w') →
  h = rt_name ∧ w' = w ∧ db_tables (w_db w) !! h = Some tm.
Proof.
  unfold typed. destruct (String.eqb_spec h rt_name) as [->|]; [|discriminate].
  intros E. apply meta_of_inv in E as [-> E]. auto.
Qed.

Lemma to_pandas_inv (h : string) (w w' : World) (rows : list R) :
  to_pandas (R := R) h w = (Ok rows, w') →
  h = rt_name ∧ rows = rt_get (w_db w) ∧ w_db w' = w_db w ∧ w_log w' = w_log w.
Proof.
  unfold to_pandas. intros E. inv_bind E. inv_bind E.
  apply engine_call_frame in H0 as (Hdb & Hlog & _).
  apply typed_inv in H1 as (-> & -> & _).
  rewrite (bind_ok _ _ _ _ _ (get_db_eq _)) in E. apply ret_inv in E as [-> ->].
  rewrite Hdb. auto.
Qed.

Lemma search_where_inv (h : string) (p : Pred) (w w' : World) (rows : list R) :
  search_where (R := R) h p w = (Ok rows, w') →
  h = rt_name ∧ rows = List.filter (eval_pred p) (rt_get (w_db w))
  ∧ w_db w' = w_db w ∧ w_log w' = w_log w.
Proof.
  unfold search_where. intros E. inv_bind E. inv_bind E.
  apply engine_call_frame in H0 as (Hdb & Hlog & _).
  apply typed_inv in H1 as (-> & -> & _).
  rewrite (bind_ok _ _ _ _ _ (get_db_eq _)) in E. apply ret_inv in E as [-> ->].
  rewrite Hdb. auto.
Qed.

Lemma delete_inv (h : string) (p : Pred) (w w' : World) :
  delete (R := R) h p w = (Ok tt, w') →
  h = rt_name
  ∧ w_db w' = rt_set (List.filter (λ r, negb (eval_pred p r)) (rt_get (w_db w))) (w_db w)
  ∧ w_log w' = w_log w ++ [EvDelete h p].
Proof.
  unfold delete. intros E. inv_bind E. inv_bind E.
  apply engine_call_frame in H0 as (Hdb & Hlog & _).
  apply typed_inv in H1 as (-> & -> & _).
  injection E as <-. cbn. rewrite Hdb, Hlog. auto.
Qed.

Lemma add_inv (h : string) (rows : list R) (w w' : World) :
  add (R := R) h rows w = (Ok tt, w') →
  h = rt_name
  ∧ w_db w' = rt_set (rt_get (w_db w) ++ rows) (w_db w)
  ∧ w_log w' = w_log w ++ [EvAdd h].
Proof.
  unfold add. intros E. inv_bind E. inv_bind E.
  apply engine_call_frame in H0 as (Hdb & Hlog & _).
  apply typed_inv in H1 as (-> & -> & _).
  destruct (forallb _ rows); [|discriminate].
  injection E as <-. cbn. rewrite Hdb, Hlog. auto.
Qed.
End TypedInversion.

(** ** Cascade delete *)

Lemma filter_all {A : Type} (l : list A) : List.filter (λ _, true) l = l.
Proof. induction l as [|x l IH]; [reflexivity | cbn; by rewrite IH]. Qed.

Lemma filter_twice {A : Type} (f g : A → bool) (l : list A) :
  List.filter f (List.filter g l) = List.filter (λ x, g x && f x) l.
Proof.
  induction l as [|x l IH]; [reflexivity|].
  cbn. destruct (g x); cbn; [destruct (f x)|]; by rewrite IH.
Qed.

Lemma try_false_true (m : M bool) (w w' : World) :
  try_except m (λ _ : Exn, mret false) w = (Ok true, w') → m w = (Ok true, w').
Proof.
  unfold try_except. destruct (m w) as [[b|e] w1]; [auto | discriminate].
Qed.

Lemma for_each_delete_entries (ids : list string) (w w' : World) :
  for_each ids (λ entry_id, delete (R := EntryRow) "entries" (PredEq "id" entry_id)) w
    = (Ok tt, w') →
  db_entries (w_db w')
    = List.filter (λ e, negb (str_in (ent_id e) ids)) (db_entries (w_db w))
  ∧ db_topics (w_db w') = db_topics (w_db w)
  ∧ db_categories (w_db w') = db_categories (w_db w)
  ∧ w_log w' = w_log w ++ map (λ id, EvDelete "entries" (PredEq "id" id)) ids.
Proof.
  revert w. induction ids as [|id ids IH]; intros w E.
  - apply ret_inv in E as [_ ->]. rewrite filter_all, app_nil_r. auto.
  - cbn [for_each] in E. bind_inv E as u w1 H. destruct u.
    apply delete_inv in H as (_ & Hdb & Hlog).
    apply IH in E as (He & Ht & Hc & Hl).
    rewrite He, Ht, Hc, Hl, Hdb, Hlog. cbn.
    rewrite filter_twice, <- app_assoc. repeat split; try reflexivity.
    apply filter_ext. intros e. unfold str_in. cbn.
    by rewrite negb_orb.
Qed.

Lemma for_each_delete_topics (ids : list string) (w w' : World) :
  for_each ids (λ topic_id, delete (R := TopicRow) "topics" (PredEq "id" topic_id)) w
    = (Ok tt, w') →
  db_topics (w_db w')
    = List.filter (λ t, negb (str_in (top_id t) ids)) (db_topics (w_db w))
  ∧ db_entries (w_db w') = db_entries (w_db w)
  ∧ db_categories (w_db w') = db_categories (w_db w)
  ∧ w_log w' = w_log w ++ map (λ id, EvDelete "topics" (PredEq "id" id)) ids.
Proof.
  revert w. induction ids as [|id ids IH]; intros w E.
  - apply ret_inv in E as [_ ->]. rewrite filter_all, app_nil_r. auto.
  - cbn [for_each] in E. bind_inv E as u w1 H. destruct u.
    apply delete_inv in H as (_ & Hdb & Hlog).
    apply IH in E as (Ht & He & Hc & Hl).
    rewrite He, Ht, Hc, Hl, Hdb, Hlog. cbn.
    rewrite filter_twice, <- app_assoc. repeat split; try reflexivity.
    apply filter_ext. intros t. unfold str_in. cbn.
    by rewrite negb_orb.
Qed.

Lemma entries_under_nil (d : DB) : entries_under [] d = [].
Proof.
  unfold entries_under. induction (db_entries d) as [|e l IH]; [reflexivity | exact IH].
Qed.

Lemma delete_category_trace (self : LanceDBManager) (category_id : string) (w w' : World) :
  delete_category self category_id w = (Ok true, w') →
  let topic_ids := topics_under category_id (w_db w) in
  let entry_ids := entries_under topic_ids (w_db w) in
  db_entries (w_db w')
    = List.filter (λ e, negb (str_in (ent_id e) entry_ids)) (db_entries (w_db w))
  ∧ db_topics (w_db w')
    = List.filter (λ t, negb (str_in (top_id t) topic_ids)) (db_topics (w_db w))
  ∧ db_categories (w_db w')
    = List.filter (λ c, negb (String.eqb (cat_id c) category_id)) (db_categories (w_db w))
  ∧ w_log w'
    = w_log w
        ++ map (λ id, EvDelete "entries" (PredEq "id" id)) entry_ids
        ++ map (λ id, EvDelete "topics" (PredEq "id" id)) topic_ids
        ++ [EvDelete "categories" (PredEq "id" category_id)].
Proof.
  intros E topic_ids entry_ids. unfold delete_category in E.
  apply try_false_true in E.
  bind_inv E as h1 w1 H1. apply open_table_inv in H1 as (-> & _ & Hdb1 & Hlog1).
  bind_inv E as tops w2 H2. apply search_where_inv in H2 as (_ & Htopics & Hdb2 & Hlog2).
  bind_inv E as h3 w3 H3. apply open_table_inv in H3 as (-> & _ & Hdb3 & Hlog3).
  assert (Hids : map top_id tops = topic_ids).
  { rewrite Htopics, Hdb1. reflexivity. }
  rewrite Hids in E.
  assert (Hdb03 : w_db w3 = w_db w) by congruence.
  assert (Hlog03 : w_log w3 = w_log w) by congruence.
  clear Hdb1 Hdb2 Hdb3 Hlog1 Hlog2 Hlog3 Htopics Hids.
  bind_inv E as u4 w4 H4.
  assert (Hent : db_entries (w_db w4)
                   = List.filter (λ e, negb (str_in (ent_id e) entry_ids))
                                 (db_entries (w_db w))
                 ∧ db_topics (w_db w4) = db_topics (w_db w)
                 ∧ db_categories (w_db w4) = db_categories (w_db w)
                 ∧ w_log w4 = w_log w
                     ++ map (λ id, EvDelete "entries" (PredEq "id" id)) entry_ids).
  { unfold entry_ids. clear E. destruct topic_ids as [|t ts] eqn:Et.
    - apply ret_inv in H4 as [_ ->]. rewrite entries_under_nil. cbn.
      rewrite filter_all, app_nil_r, Hdb03. auto.
    - bind_inv H4 as ents w5 H5. apply search_where_inv in H5 as (_ & Hrows & Hdb4 & Hlog4).
      destruct u4. apply for_each_delete_entries in H4 as (He & Ht & Hc & Hl).
      rewrite He, Ht, Hc, Hl, Hdb4, Hlog4, Hrows, Hdb03, Hlog03. auto. }
  destruct Hent as (He3 & Ht3 & Hc3 & Hl3).
  bind_inv E as u6 w6 H6. destruct u6.
  apply for_each_delete_topics in H6 as (Ht4 & He4 & Hc4 & Hl4).
  bind_inv E as h7 w7 H7. apply open_table_inv in H7 as (-> & _ & Hdb5 & Hlog5).
  bind_inv E as u8 w8 H8. destruct u8.
  apply delete_inv in H8 as (_ & Hdb6 & Hlog6).
  apply ret_inv in E as [_ ->].
  rewrite Hdb6, Hlog6, Hdb5, Hlog5. cbn.
  rewrite He4, Ht4, Hc4, Hl4, He3, Ht3, Hc3, Hl3.
  rewrite <- !app_assoc. repeat split; reflexivity.
Qed.

(** C4. When [delete_category] returns [True]: no topic row refers to the
    category any more, no entry row refers to a topic that was under it,
    the category row itself is gone, and the engine was asked to delete the
    owned entries first, then the topics, then the category. *)
Theorem delete_category_cascade
    (self : LanceDBManager) (category_id : string) (w w' : World) :
  delete_category self category_id w = (Ok true, w') →
  (∀ t, In t (db_topics (w_db w')) → top_category_id t ≠ category_id)
  ∧ (∀ e t, In e (db_entries (w_db w')) → In t (db_topics (w_db w)) →
            top_category_id t = category_id → ent_topic_id e ≠ top_id t)
  ∧ (∀ c, In c (db_categories (w_db w')) → cat_id c ≠ category_id)
  ∧ w_log w'
    = w_log w
        ++ map (λ id, EvDelete "entries" (PredEq "id" id))
               (entries_under (topics_under category_id (w_db w)) (w_db w))
        ++ map (λ id, EvDelete "topics" (PredEq "id" id))
               (topics_under category_id (w_db w))
        ++ [EvDelete "categories" (PredEq "id" category_id)].
Proof.
  intros E. apply delete_category_trace in E as (He & Ht & Hc & Hl).
  assert (Hunder : ∀ t, In t (db_topics (w_db w)) → top_category_id t = category_id →
                        str_in (top_id t) (topics_under category_id (w_db w)) = true).
  { intros t Hin Hcat. apply str_in_elem_of, list_elem_of_In.
    unfold topics_under. apply in_map, filter_In. split; [done|].
    rewrite Hcat. apply String.eqb_refl. }
  repeat split; [| | | exact Hl].
  - intros t Hin Hcat. rewrite Ht in Hin. apply filter_In in Hin as [Hin Hnot].
    rewrite (Hunder t Hin Hcat) in Hnot. discriminate.
  - intros e t Hin Htin Hcat Href. rewrite He in Hin.
    apply filter_In in Hin as [Hin Hnot].
    assert (Hid : str_in (ent_id e)
                    (entries_under (topics_under category_id (w_db w)) (w_db w)) = true).
    { apply str_in_elem_of, list_elem_of_In. unfold entries_under.
      apply in_map, filter_In. split; [done|]. rewrite Href. by apply Hunder. }
    rewrite Hid in Hnot. discriminate.
  - intros c Hin Hid. rewrite Hc in Hin. apply filter_In in Hin as [_ Hnot].
    rewrite Hid, String.eqb_refl in Hnot. discriminate.
Qed.

(** ** Frame conditions *)

Section Frames.
Variable I : World → World → Prop.
Hypothesis I_refl : ∀ w, I w w.
Hypothesis I_trans : ∀ w1 w2 w3, I w1 w2 → I w2 w3 → I w1 w3.

Lemma frames_ret {A : Type} (a : A) : frames I (mret a : M A).
Proof. intros w r w' [= <- <-]. apply I_refl. Qed.

Lemma frames_raise {A : Type} (e : Exn) : frames I (raise e : M A).
Proof. intros w r w' [= <- <-]. apply I_refl. Qed.

Lemma frames_bind {A B : Type} (m : M A) (f : A → M B) :
  frames I m → (∀ a, frames I (f a)) → frames I (m ≫= f).
Proof.
  intros Hm Hf w r w'. rewrite bind_unfold.
  destruct (m w) as [[a|e] w1] eqn:E; intros H.
  - eapply I_trans; [eapply Hm, E | eapply Hf, H].
  - injection H as <- <-. eapply Hm, E.
Qed.

Lemma frames_try {A : Type} (m : M A) (h : Exn → M A) :
  frames I m → (∀ e, frames I (h e)) → frames I (try_except m h).
Proof.
  intros Hm Hh w r w'. unfold try_except.
  destruct (m w) as [[a|e] w1] eqn:E; intros H.
  - injection H as <- <-. eapply Hm, E.
  - eapply I_trans; [eapply Hm, E | eapply Hh, H].
Qed.

Lemma frames_call {A : Type} (r : Exn + A) : frames I (call r).
Proof. destruct r; [apply frames_raise | apply frames_ret]. Qed.

Lemma frames_for_each {A : Type} (xs : list A) (body : A → M unit) :
  (∀ x, frames I (body x)) → frames I (for_each xs body).
Proof.
  intros Hb. induction xs as [|x xs IH]; [apply frames_ret|].
  apply frames_bind; [apply Hb | intros _; exact IH].
Qed.

Lemma frames_for_collect {A B : Type} (xs : list A) (body : A → M B) :
  (∀ x, frames I (body x)) → frames I (for_collect xs body).
Proof.
  intros Hb. induction xs as [|x xs IH]; [apply frames_ret|].
  apply frames_bind; [apply Hb | intros y].
  apply frames_bind; [exact IH | intros ys; apply frames_ret].
Qed.

Lemma frames_for_fold {A S : Type} (xs : list A) (init : S) (body : S → A → M S) :
  (∀ s x, frames I (body s x)) → frames I (for_fold xs init body).
Proof.
  intros Hb. revert init. induction xs as [|x xs IH]; intros init; [apply frames_ret|].
  apply frames_bind; [apply Hb | intros s; apply IH].
Qed.

Lemma frames_filter_m {A : Type} (cond : A → M bool) (xs : list A) :
  (∀ x, frames I (cond x)) → frames I (filter_m cond xs).
Proof.
  intros Hc. induction xs as [|x xs IH]; [apply frames_ret|].
  apply frames_bind; [apply Hc | intros keep].
  apply frames_bind; [exact IH | intros rest; apply frames_ret].
Qed.
End Frames.

Lemma untouched_refl (w : World) : untouched w w.
Proof. by split. Qed.

Lemma untouched_trans (w1 w2 w3 : World) : untouched w1 w2 → untouched w2 w3 → untouched w1 w3.
Proof. intros [? ?] [? ?]. split; congruence. Qed.

Lemma read_only_refl (w : World) : read_only w w.
Proof. split; [done | exists []; by rewrite app_nil_r]. Qed.

Lemma read_only_trans (w1 w2 w3 : World) : read_only w1 w2 → read_only w2 w3 → read_only w1 w3.
Proof.
  intros [D1 [l1 L1]] [D2 [l2 L2]]. split; [congruence|].
  exists (l1 ++ l2). rewrite L2, L1. by rewrite app_assoc.
Qed.

Lemma untouched_read_only (w w' : World) : untouched w w' → read_only w w'.
Proof. intros [D L]. split; [done | exists []; by rewrite app_nil_r]. Qed.

Lemma rows_kept_refl (w : World) : rows_kept w w.
Proof. by repeat split. Qed.

Lemma rows_kept_trans (w1 w2 w3 : World) : rows_kept w1 w2 → rows_kept w2 w3 → rows_kept w1 w3.
Proof. intros (?&?&?&?) (?&?&?&?). repeat split; congruence. Qed.

Lemma read_only_rows_kept (w w' : World) : read_only w w' → rows_kept w w'.
Proof. intros [D _]. unfold rows_kept. rewrite D. by repeat split. Qed.

Lemma frames_ok {A : Type} (I : World → World → Prop) (m : M A) (w w' : World)
    (r : Outcome A) :
  frames I m → m w = (r, w') → I w w'.
Proof. intros Hm E. eapply Hm, E. Qed.

Lemma frames_weaken {A : Type} (I J : World → World → Prop) (m : M A) :
  (∀ w w', I w w' → J w w') → frames I m → frames J m.
Proof. intros HIJ Hm w r w' E. eapply HIJ, Hm, E. Qed.

Create HintDb frames.

Ltac frame_law :=
  first [ exact untouched_refl | exact untouched_trans
        | exact read_only_refl | exact read_only_trans
        | exact rows_kept_refl | exact rows_kept_trans ].

Ltac frame_known :=
  first
    [ solve [eauto with frames]
    | solve [ eapply (frames_weaken untouched);
              [ first [ exact untouched_read_only
                      | intros ? ? ?; apply read_only_rows_kept, untouched_read_only;
                        assumption ]
              | eauto with frames ] ]
    | solve [ eapply (frames_weaken read_only);
              [ exact read_only_rows_kept | eauto with frames ] ] ].

Ltac frame :=
  repeat first
    [ frame_known
    | apply frames_ret; frame_law
    | apply frames_raise; frame_law
    | apply frames_bind; [frame_law | | intros ?]
    | apply frames_try; [frame_law | | intros ?]
    | apply frames_call; frame_law
    | apply frames_for_each; [frame_law | frame_law | intros ?]
    | apply frames_for_collect; [frame_law | frame_law | intros ?]
    | apply frames_for_fold; [frame_law | frame_law | intros ? ?]
    | apply frames_filter_m; [frame_law | frame_law | intros ?]
    | match goal with
      | |- frames _ (match ?x with _ => _ end) => destruct x
      end ].

(** *** The primitives *)

Lemma engine_call_untouched : frames untouched engine_call.
Proof. intros w r w' E. apply engine_call_frame in E as (? & ? & _). by split. Qed.

Lemma get_db_untouched : frames untouched get_db.
Proof. intros w r w' [= <- <-]. apply untouched_refl. Qed.

#[local] Hint Resolve engine_call_untouched get_db_untouched : frames.

Lemma meta_of_untouched (h : string) : frames untouched (meta_of h).
Proof.
  unfold meta_of. frame.
Qed.

Lemma table_names_untouched : frames untouched table_names.
Proof. unfold table_names. frame. Qed.

Lemma open_table_untouched (name : string) : frames untouched (open_table name).
Proof. unfold open_table. frame. Qed.

#[local] Hint Resolve meta_of_untouched table_names_untouched open_table_untouched : frames.

Lemma schema_of_untouched (h : string) : frames untouched (schema_of h).
Proof. unfold schema_of. frame. Qed.

Lemma count_rows_untouched (h : string) : frames untouched (count_rows h).
Proof. unfold count_rows. frame. Qed.

Lemma log_event_read_only (e : Event) : frames read_only (log_event e).
Proof. intros w r w' [= <- <-]. split; [done | by exists [e]]. Qed.

#[local] Hint Resolve schema_of_untouched count_rows_untouched log_event_read_only : frames.

Section TypedFrames.
Context {R : Type} `{RowTable R}.

Lemma typed_untouched (h : string) : frames untouched (typed (R := R) h).
Proof. unfold typed. destruct (String.eqb h rt_name); frame. Qed.

Hint Resolve typed_untouched : frames.

Lemma to_pandas_untouched (h : string) : frames untouched (to_pandas (R := R) h).
Proof. unfold to_pandas. frame. Qed.

Lemma search_where_untouched (h : string) (p : Pred) :
  frames untouched (search_where (R := R) h p).
Proof. unfold search_where. frame. Qed.

Lemma vector_search_read_only (ext : Externals) (h : string) (query : list Q)
    (where_ : option Pred) (limit : nat) :
  frames read_only (vector_search ext (R := R) h query where_ limit).
Proof. unfold vector_search. frame. Qed.
End TypedFrames.

#[local] Hint Resolve typed_untouched to_pandas_untouched search_where_untouched
  vector_search_read_only : frames.

Lemma fts_search_read_only (ext : Externals) (h query : string) (limit : nat) :
  frames read_only (fts_search ext h query limit).
Proof. unfold fts_search. frame. Qed.

Lemma get_embedding_untouched (ext : Externals) (self : OpenAIEmbeddings) (text : string) :
  frames untouched (get_embedding ext self text).
Proof. unfold get_embedding. frame. Qed.

Lemma to_fixed_size_list_untouched (size : Z) (vector : list Q) :
  frames untouched (to_fixed_size_list size vector).
Proof. unfold to_fixed_size_list. frame. Qed.

Lemma new_uuid_untouched (ext : Externals) : frames untouched (new_uuid ext).
Proof. intros w r w' [= <- <-]. by split. Qed.

Lemma now_untouched (ext : Externals) : frames untouched (now ext).
Proof. intros w r w' [= <- <-]. by split. Qed.

Lemma modify_tables_rows_kept (f : gmap string TableMeta → gmap string TableMeta) :
  frames rows_kept (modify_db (set_tables f)).
Proof. intros w r w' [= <- <-]. by repeat split. Qed.

#[local] Hint Resolve fts_search_read_only get_embedding_untouched
  to_fixed_size_list_untouched new_uuid_untouched now_untouched
  modify_tables_rows_kept : frames.

Lemma create_fts_index_rows_kept (h column : string) :
  frames rows_kept (create_fts_index h column).
Proof. unfold create_fts_index. frame. Qed.

Lemma create_index_rows_kept (h column : string) (spec : IndexSpec) :
  frames rows_kept (create_index h column spec).
Proof. unfold create_index. frame. Qed.

#[local] Hint Resolve create_fts_index_rows_kept create_index_rows_kept : frames.

Lemma create_inverted_index_rows_kept (self : LanceDBManager) (table_name column_name : string) :
  frames rows_kept (create_inverted_index self table_name column_name).
Proof. unfold create_inverted_index. frame. Qed.

Lemma create_vector_index_rows_kept (self : LanceDBManager) (table_name column_name : string) :
  frames rows_kept (create_vector_index self table_name column_name).
Proof. unfold create_vector_index. frame. Qed.

#[local] Hint Resolve create_inverted_index_rows_kept create_vector_index_rows_kept : frames.

Lemma create_or_update_indices_rows_kept (self : LanceDBManager) (table_name : string) :
  frames rows_kept (_create_or_update_inverted_indices self table_name).
Proof. unfold _create_or_update_inverted_indices. frame. Qed.

Lemma get_pa_schema_untouched (self : LanceDBManager) (table_name : string) :
  frames untouched (_get_pa_schema self table_name).
Proof. unfold _get_pa_schema. frame. Qed.

#[local] Hint Resolve create_or_update_indices_rows_kept get_pa_schema_untouched : frames.

(** *** Retrieval reads and logs, nothing else *)

Lemma search_table_fulltext_read_only (ext : Externals) (self : LanceDBManager)
    (table_name query : string) (limit : nat) :
  frames read_only (search_table_fulltext ext self table_name query limit).
Proof. unfold search_table_fulltext. frame. Qed.

Lemma iloc0_untouched {A : Type} (df : list A) : frames untouched (iloc0 df).
Proof. unfold iloc0. frame. Qed.

#[local] Hint Resolve search_table_fulltext_read_only iloc0_untouched : frames.

Lemma enrich_untouched (ext : Externals) (topics_df : list TopicRow)
    (categories_df : list CategoryRow) (row : EntryRow) (score : Q) :
  frames untouched (enrich ext topics_df categories_df row score).
Proof. unfold enrich, lookup_topic, lookup_category, load_tags. frame. Qed.

Lemma hierarchy_filter_untouched (category_id topic_id : option string) :
  frames untouched (hierarchy_filter category_id topic_id).
Proof. unfold hierarchy_filter. frame. Qed.

#[local] Hint Resolve enrich_untouched hierarchy_filter_untouched : frames.

Lemma search_entries_read_only (ext : Externals) (self : LanceDBManager) (query : string)
    (limit : nat) (category_id topic_id : option string) :
  frames read_only (search_entries ext self query limit category_id topic_id).
Proof. unfold search_entries. frame. Qed.

Lemma verify_openai_embeddings_untouched (ext : Externals) :
  frames untouched (verify_openai_embeddings ext).
Proof. unfold verify_openai_embeddings. frame. Qed.

#[local] Hint Resolve search_entries_read_only verify_openai_embeddings_untouched : frames.

(** *** A table below five rows gets no index, whatever the engine does *)

Lemma bind_cases {A B : Type} (m : M A) (f : A → M B) (w w' : World) (r : Outcome B) :
  (m ≫= f) w = (r, w') →
  (∃ e, m w = (Raise e, w') ∧ r = Raise e)
  ∨ (∃ a w1, m w = (Ok a, w1) ∧ f a w1 = (r, w')).
Proof.
  rewrite bind_unfold. destruct (m w) as [[a|e] w1]; intros E.
  - right. eauto.
  - left. injection E as <- <-. eauto.
Qed.

Lemma count_rows_inv (h : string) (w w' : World) (n : Z) :
  count_rows h w = (Ok n, w') → n = rows_in (w_db w) h.
Proof.
  unfold count_rows. intros E. bind_inv E as u w1 H1.
  apply engine_call_frame in H1 as (Hdb & _).
  bind_inv E as tm w2 H2. apply meta_of_inv in H2 as [-> _].
  rewrite (bind_ok _ _ _ _ _ (get_db_eq _)) in E. apply ret_inv in E as [-> _].
  by rewrite Hdb.
Qed.

Lemma create_vector_index_small_table
    (self : LanceDBManager) (table_name column_name : string) (w w' : World)
    (r : Outcome bool) :
  rows_in (w_db w) table_name < 5 →
  create_vector_index self table_name column_name w = (r, w') →
  r ≠ Ok true ∧ untouched w w'.
Proof.
  intros Hrows E. unfold create_vector_index in E.
  apply bind_cases in E as [(e & E & ->) | (names & w1 & E1 & E)].
  { split; [discriminate|]. eapply table_names_untouched, E. }
  apply (frames_ok _ _ _ _ _ table_names_untouched) in E1.
  destruct (negb _).
  { injection E as <- <-. split; [discriminate | exact E1]. }
  assert (Hbody : ∀ r2 w2,
    (table ← open_table table_name;
     table_schema ← schema_of table;
     if negb (str_in column_name (map field_name table_schema)) then mret false
     else
       table_size ← count_rows table;
       if table_size <? 5 then mret false
       else
         let '(num_partitions, num_sub_vectors) :=
           if dimensions (embeddings self) >? 1000 then
             (Z.max (int_of_sqrt table_size) 2,
              Z.min (Z.max (int_of_div (dimensions (embeddings self)) 100) 4) 96)
           else
             (Z.max (int_of_sqrt table_size) 2,
              Z.max (int_of_div (dimensions (embeddings self)) 8) 4) in
         create_index table column_name
           (mkIndexSpec "cosine" num_partitions num_sub_vectors) ;;
         mret true) w1 = (r2, w2) →
    r2 ≠ Ok true ∧ untouched w1 w2).
  { intros r2 w2 Eb.
    apply bind_cases in Eb as [(e & Eb & ->) | (h & w3 & E3 & Eb)].
    { split; [discriminate|]. eapply open_table_untouched, Eb. }
    pose proof (frames_ok _ _ _ _ _ (open_table_untouched _) E3) as U3.
    apply open_table_inv in E3 as (-> & _).
    apply bind_cases in Eb as [(e & Eb & ->) | (schema & w4 & E4 & Eb)].
    { split; [discriminate|]. eapply untouched_trans; [exact U3|].
      eapply schema_of_untouched, Eb. }
    apply (frames_ok _ _ _ _ _ (schema_of_untouched _)) in E4.
    assert (U4 : untouched w1 w4) by (eapply untouched_trans; eauto).
    destruct (negb _).
    { injection Eb as <- <-. split; [discriminate | exact U4]. }
    apply bind_cases in Eb as [(e & Eb & ->) | (n & w5 & E5 & Eb)].
    { split; [discriminate|]. eapply untouched_trans; [exact U4|].
      eapply count_rows_untouched, Eb. }
    pose proof (frames_ok _ _ _ _ _ (count_rows_untouched _) E5) as U5.
    apply count_rows_inv in E5 as ->.
    pose proof U4 as [Hdb4 _]. pose proof E1 as [Hdb1 _].
    rewrite Hdb4, Hdb1 in Eb.
    destruct (Z.ltb_spec (rows_in (w_db w) table_name) 5) as [_|]; [|lia].
    injection Eb as <- <-. split; [discriminate|].
    eapply untouched_trans; [exact U4 | exact U5]. }
  unfold try_except in E.
  match type of E with
  | match ?body w1 with _ => _ end = _ => destruct (body w1) as [[b|e] w2] eqn:Eb
  end.
  - injection E as <- <-. destruct (Hbody _ _ eq_refl) as [Hb U]. split; [exact Hb|].
    eapply untouched_trans; eauto.
  - injection E as <- <-. destruct (Hbody _ _ eq_refl) as [_ U]. split; [discriminate|].
    eapply untouched_trans; eauto.
Qed.

(** ** Updates of the hierarchy *)

Lemma iloc0_inv {A : Type} (df : list A) (x : A) (w w' : World) :
  iloc0 df w = (Ok x, w') → w' = w ∧ ∃ rest, df = x :: rest.
Proof. destruct df as [|y rest]; [discriminate|]. intros [= -> ->]. eauto. Qed.

(** What [update_category] leaves in the table: the other rows, then one
    row with the new name (or the old one) and the description it was
    given, whatever was stored. *)
Lemma update_category_stored
    (self : LanceDBManager) (category_id : string) (name description : option string)
    (w w' : World) (b : bool) :
  update_category self category_id name description w = (Ok b, w') →
  ∃ current rest,
    List.filter (λ c, String.eqb (cat_id c) category_id) (db_categories (w_db w))
      = current :: rest
    ∧ db_categories (w_db w')
      = List.filter (λ c, negb (String.eqb (cat_id c) category_id)) (db_categories (w_db w))
        ++ [mkCategory category_id (if_truthy_else name (cat_name current)) description].
Proof.
  unfold update_category. intros E.
  bind_inv E as h w1 H1. apply open_table_inv in H1 as (-> & _ & Hdb1 & _).
  bind_inv E as existing w2 H2. apply search_where_inv in H2 as (_ & Hex & Hdb2 & _).
  destruct existing as [|current rest]; [discriminate|]. cbn [length Nat.eqb] in E.
  bind_inv E as cur w3 H3. apply iloc0_inv in H3 as (-> & rest' & [= <- <-]).
  bind_inv E as sch w4 H4. apply (frames_ok _ _ _ _ _ (get_pa_schema_untouched _ _)) in H4 as [Hdb4 _].
  bind_inv E as u5 w5 H5. destruct u5. apply delete_inv in H5 as (_ & Hdb5 & _).
  bind_inv E as u6 w6 H6. destruct u6. apply add_inv in H6 as (_ & Hdb6 & _).
  apply ret_inv in E as [_ ->].
  exists current, rest. split.
  - rewrite Hex, Hdb1. reflexivity.
  - rewrite Hdb6, Hdb5, Hdb4, Hdb2, Hdb1. reflexivity.
Qed.

(** [update_topic] keeps the stored description when none is given. *)
Lemma update_topic_stored
    (self : LanceDBManager) (topic_id : string) (name description : option string)
    (w w' : World) (b : bool) :
  update_topic self topic_id name description w = (Ok b, w') →
  ∃ current rest,
    List.filter (λ t, String.eqb (top_id t) topic_id) (db_topics (w_db w)) = current :: rest
    ∧ db_topics (w_db w')
      = List.filter (λ t, negb (String.eqb (top_id t) topic_id)) (db_topics (w_db w))
        ++ [mkTopic topic_id (top_category_id current)
                    (if_truthy_else name (top_name current))
                    (if_truthy_else description (top_description current))].
Proof.
  unfold update_topic. intros E.
  bind_inv E as h w1 H1. apply open_table_inv in H1 as (-> & _ & Hdb1 & _).
  bind_inv E as existing w2 H2. apply search_where_inv in H2 as (_ & Hex & Hdb2 & _).
  destruct existing as [|current rest]; [discriminate|]. cbn [length Nat.eqb] in E.
  bind_inv E as cur w3 H3. apply iloc0_inv in H3 as (-> & rest' & [= <- <-]).
  bind_inv E as sch w4 H4. apply (frames_ok _ _ _ _ _ (get_pa_schema_untouched _ _)) in H4 as [Hdb4 _].
  bind_inv E as u5 w5 H5. destruct u5. apply delete_inv in H5 as (_ & Hdb5 & _).
  bind_inv E as u6 w6 H6. destruct u6. apply add_inv in H6 as (_ & Hdb6 & _).
  apply ret_inv in E as [_ ->].
  exists current, rest. split.
  - rewrite Hex, Hdb1. reflexivity.
  - rewrite Hdb6, Hdb5, Hdb4, Hdb2, Hdb1. reflexivity.
Qed.

(** ** Embeddings *)

Lemma get_embedding_client (ext : Externals) (self : OpenAIEmbeddings) (c : OpenAIClient)
    (text : string) (w : World) :
  client self = Some c →
  get_embedding ext self text w = (Ok (embedding_or_zeros ext self c text), w).
Proof.
  intros Hc. unfold get_embedding, embedding_or_zeros. rewrite Hc.
  unfold try_except. rewrite bind_unfold.
  destruct (embeddings_create c _ _ _); reflexivity.
Qed.

Lemma get_embedding_no_client (ext : Externals) (self : OpenAIEmbeddings) (text : string)
    (w : World) :
  client self = None →
  get_embedding ext self text w
    = (Raise (ValueError "OpenAI client not initialized - API key missing"), w).
Proof. intros Hc. unfold get_embedding. rewrite Hc. reflexivity. Qed.

Lemma update_entry_stored
    (ext : Externals) (self : LanceDBManager) (entry_id : string)
    (title content : option string) (tags : option (list string)) (source : option string)
    (generate_embedding : bool) (w w' : World) (b : bool) :
  update_entry ext self entry_id title content tags source generate_embedding w = (Ok b, w') →
  ∃ current rest row,
    List.filter (λ e, String.eqb (ent_id e) entry_id) (db_entries (w_db w)) = current :: rest
    ∧ db_entries (w_db w')
      = List.filter (λ e, negb (String.eqb (ent_id e) entry_id)) (db_entries (w_db w))
        ++ [row]
    ∧ ent_id row = entry_id
    ∧ ent_topic_id row = ent_topic_id current
    ∧ ent_vector row = Some (updated_vector ext self current content generate_embedding).
Proof.
  unfold update_entry. intros E.
  bind_inv E as h w1 H1. apply open_table_inv in H1 as (-> & _ & Hdb1 & _).
  bind_inv E as existing w2 H2. apply search_where_inv in H2 as (_ & Hex & Hdb2 & _).
  destruct existing as [|current rest]; [discriminate|]. cbn [length Nat.eqb] in E.
  bind_inv E as cur w3 H3. apply iloc0_inv in H3 as (-> & rest' & [= <- <-]).
  cbv zeta in E.
  bind_inv E as vector w4 H4.
  assert (Hvec : vector = updated_vector ext self current content generate_embedding
                 ∧ w_db w4 = w_db w2).
  { unfold updated_vector. destruct content as [text|]; [|by apply ret_inv in H4 as [-> ->]].
    destruct generate_embedding; [|destruct (client _); by apply ret_inv in H4 as [-> ->]].
    destruct (client (embeddings self)) as [c|] eqn:Hc.
    - rewrite (try_ok _ _ _ _ _ (get_embedding_client ext _ c text w2 Hc)) in H4.
      by injection H4 as <- <-.
    - rewrite (try_raise _ _ _ _ _ (get_embedding_no_client ext _ text w2 Hc)) in H4.
      by apply ret_inv in H4 as [-> ->]. }
  destruct Hvec as [-> Hdb4].
  bind_inv E as t5 w5 H5. apply (frames_ok _ _ _ _ _ (now_untouched _)) in H5 as [Hdb5 _].
  bind_inv E as v6 w6 H6.
  assert (Hv6 : v6 = updated_vector ext self current content generate_embedding ∧ w6 = w5).
  { unfold to_fixed_size_list in H6. destruct (Z.eqb _ _); [|discriminate].
    by apply ret_inv in H6 as [-> ->]. }
  destruct Hv6 as [-> ->].
  bind_inv E as u7 w7 H7. destruct u7. apply delete_inv in H7 as (_ & Hdb7 & _).
  bind_inv E as u8 w8 H8. destruct u8. apply add_inv in H8 as (_ & Hdb8 & _).
  bind_inv E as u9 w9 H9.
  apply (frames_ok _ _ _ _ _ (create_or_update_indices_rows_kept _ _)) in H9 as (_ & _ & He9 & _).
  apply ret_inv in E as [_ ->].
  eexists current, rest, _. split; [|split; [|split; [|split]]].
  - rewrite Hex, Hdb1. reflexivity.
  - rewrite He9, Hdb8, Hdb7, Hdb5, Hdb4, Hdb2, Hdb1. reflexivity.
  - reflexivity.
  - reflexivity.
  - reflexivity.
Qed.

Lemma create_entry_stored
    (ext : Externals) (self : LanceDBManager) (topic_id : string)
    (title content : option string) (tags : option (list string)) (source : string)
    (generate_embedding : bool) (w w' : World) (entry_id : string) :
  create_entry ext self topic_id title content tags source generate_embedding w
    = (Ok entry_id, w') →
  ∃ created_at updated_at,
    db_entries (w_db w')
    = db_entries (w_db w)
      ++ [mkEntry entry_id topic_id title content (Some (dump_tags ext tags))
                  (Some created_at) (Some updated_at)
                  (Some (created_vector ext self content generate_embedding))
                  (Some source)].
Proof.
  unfold create_entry. intros E.
  bind_inv E as h w1 H1. apply open_table_inv in H1 as (-> & _ & Hdb1 & _).
  bind_inv E as topic w2 H2. apply search_where_inv in H2 as (_ & _ & Hdb2 & _).
  destruct (Nat.eqb (length topic) 0); [discriminate|].
  bind_inv E as h3 w3 H3. apply open_table_inv in H3 as (-> & _ & Hdb3 & _).
  bind_inv E as existing w4 H4. apply search_where_inv in H4 as (_ & _ & Hdb4 & _).
  destruct (_ && _) in E; [discriminate|]. cbv zeta in E.
  bind_inv E as vector w5 H5.
  assert (Hvec : vector = created_vector ext self content generate_embedding
                 ∧ w_db w5 = w_db w4).
  { unfold created_vector. destruct content as [text|]; [|by apply ret_inv in H5 as [-> ->]].
    destruct (generate_embedding && truthy (Some text));
      [|destruct (client _); by apply ret_inv in H5 as [-> ->]].
    destruct (client (embeddings self)) as [c|] eqn:Hc.
    - rewrite (try_ok _ _ _ _ _ (get_embedding_client ext _ c text w4 Hc)) in H5.
      by injection H5 as <- <-.
    - rewrite (try_raise _ _ _ _ _ (get_embedding_no_client ext _ text w4 Hc)) in H5.
      by apply ret_inv in H5 as [-> ->]. }
  destruct Hvec as [-> Hdb5].
  bind_inv E as id w6 H6. injection H6 as <- <-.
  bind_inv E as created_at w7 H7. injection H7 as <- <-.
  bind_inv E as updated_at w8 H8. injection H8 as <- <-.
  bind_inv E as v9 w9 H9.
  assert (Hv9 : v9 = created_vector ext self content generate_embedding
                ∧ w_db w9 = w_db w5).
  { unfold to_fixed_size_list in H9. destruct (Z.eqb _ _); [|discriminate].
    by apply ret_inv in H9 as [-> ->]. }
  destruct Hv9 as [-> Hdb9].
  bind_inv E as u10 w10 H10. destruct u10. apply add_inv in H10 as (_ & Hdb10 & _).
  bind_inv E as u11 w11 H11.
  apply (frames_ok _ _ _ _ _ (create_or_update_indices_rows_kept _ _)) in H11 as (_ & _ & He11 & _).
  apply ret_inv in E as [-> ->].
  eexists _, _. rewrite He11, Hdb10, Hdb9, Hdb5, Hdb4, Hdb3, Hdb2, Hdb1. reflexivity.
Qed.

Lemma filter_out_in {A : Type} (f : A → bool) (l : list A) :
  List.filter f (List.filter (λ x, negb (f x)) l) = [].
Proof.
  rewrite filter_twice. induction l as [|x l IH]; [reflexivity|].
  cbn. destruct (f x); exact IH.
Qed.

Lemma zero_vector_length (n : Z) : 0 ≤ n → Z.of_nat (length (zero_vector n)) = n.
Proof. intros Hn. unfold zero_vector. rewrite repeat_length. lia. Qed.

(** The row [update_entry] leaves under the id, and its vector. *)
Lemma update_entry_row
    (ext : Externals) (self : LanceDBManager) (entry_id : string)
    (title content : option string) (tags : option (list string)) (source : option string)
    (generate_embedding : bool) (w w' : World) (b : bool) :
  update_entry ext self entry_id title content tags source generate_embedding w = (Ok b, w') →
  ∃ current rest row,
    List.filter (λ e, String.eqb (ent_id e) entry_id) (db_entries (w_db w)) = current :: rest
    ∧ List.filter (λ e, String.eqb (ent_id e) entry_id) (db_entries (w_db w')) = [row]
    ∧ (∀ v, ent_vector current = Some v →
            content = None ∨ generate_embedding = false →
            ent_vector row = Some v)
    ∧ (∀ text c, content = Some text → generate_embedding = true →
                 client (embeddings self) = Some c →
                 ent_vector row = Some (embedding_or_zeros ext (embeddings self) c text)).
Proof.
  intros E. apply update_entry_stored in E as (current & rest & row & Hcur & Hnew & Hid & _ & Hvec).
  exists current, rest, row. split; [exact Hcur|]. split; [|split].
  - rewrite Hnew, List.filter_app, filter_out_in. cbn. rewrite Hid, String.eqb_refl. reflexivity.
  - intros v Hv Hcase. rewrite Hvec. f_equal. unfold updated_vector. rewrite Hv.
    destruct Hcase as [-> | ->]; [reflexivity|].
    destruct content; [destruct (client (embeddings self))|]; reflexivity.
  - intros text c -> -> Hc. rewrite Hvec. unfold updated_vector. rewrite Hc. reflexivity.
Qed.

(** C8, as the code has it.  After a successful [update_entry] exactly one
    row carries the id.  When [content] is omitted or [generate_embedding]
    is off, that row has the vector that was stored before.  When [content]
    is given and [generate_embedding] is on (and the client is there), the
    vector is computed anew from the given content, equal to the stored
    content or not. *)
Theorem update_entry_vector
    (ext : Externals) (self : LanceDBManager) (entry_id : string)
    (title content : option string) (tags : option (list string)) (source : option string)
    (generate_embedding : bool) (w w' : World) (b : bool) :
  update_entry ext self entry_id title content tags source generate_embedding w = (Ok b, w') →
  ∃ current rest row,
    List.filter (λ e, String.eqb (ent_id e) entry_id) (db_entries (w_db w)) = current :: rest
    ∧ List.filter (λ e, String.eqb (ent_id e) entry_id) (db_entries (w_db w')) = [row]
    ∧ (∀ v, ent_vector current = Some v →
            content = None ∨ generate_embedding = false →
            ent_vector row = Some v)
    ∧ (∀ text c, content = Some text → generate_embedding = true →
                 client (embeddings self) = Some c →
                 ent_vector row = Some (embedding_or_zeros ext (embeddings self) c text)).
Proof. apply update_entry_row. Qed.

(** C9. With the client initialised, [get_embedding] returns on every text;
    a [try] around it never reaches its handler; on a provider error it
    returns the zero vector of length [dimensions]; [create_entry] then
    stores a row that is the plain nine columns with that zero vector, and
    [update_entry] stores the zero vector too. *)
Theorem get_embedding_never_raises
    (ext : Externals) (self : LanceDBManager) (c : OpenAIClient) (text : string) :
  client (embeddings self) = Some c →
  (∀ w, ∃ v, get_embedding ext (embeddings self) text w = (Ok v, w))
  ∧ (∀ w handler,
       try_except (get_embedding ext (embeddings self) text) handler w
       = get_embedding ext (embeddings self) text w)
  ∧ (∀ e,
       embeddings_create c (model_name (embeddings self)) (tokenizer_preprocess ext text)
                         (dimensions (embeddings self)) = inl e →
       let zeros := zero_vector (dimensions (embeddings self)) in
       (∀ w, get_embedding ext (embeddings self) text w = (Ok zeros, w))
       ∧ (0 ≤ dimensions (embeddings self) →
          Z.of_nat (length zeros) = dimensions (embeddings self))
       ∧ Forall (λ x, x = 0%Q) zeros
       ∧ (∀ topic_id title tags source w w' entry_id,
            truthy (Some text) = true →
            create_entry ext self topic_id title (Some text) tags source true w
              = (Ok entry_id, w') →
            ∃ created_at updated_at,
              db_entries (w_db w')
              = db_entries (w_db w)
                ++ [mkEntry entry_id topic_id title (Some text) (Some (dump_tags ext tags))
                            (Some created_at) (Some updated_at) (Some zeros) (Some source)])
       ∧ (∀ entry_id title tags source w w' b,
            update_entry ext self entry_id title (Some text) tags source true w = (Ok b, w') →
            ∃ row,
              List.filter (λ r, String.eqb (ent_id r) entry_id) (db_entries (w_db w')) = [row]
              ∧ ent_vector row = Some zeros)).
Proof.
  intros Hc. split; [|split].
  - intros w. eexists. apply (get_embedding_client ext _ c text w Hc).
  - intros w handler. rewrite (get_embedding_client ext _ c text w Hc).
    apply try_ok, (get_embedding_client ext _ c text w Hc).
  - intros e He zeros.
    assert (Hz : embedding_or_zeros ext (embeddings self) c text = zeros).
    { unfold embedding_or_zeros. rewrite He. reflexivity. }
    split; [|split; [|split; [|split]]].
    + intros w. rewrite <- Hz. apply (get_embedding_client ext _ c text w Hc).
    + apply zero_vector_length.
    + unfold zeros, zero_vector. apply Forall_forall. intros x Hx.
      by apply list_elem_of_In, repeat_spec in Hx.
    + intros topic_id title tags source w w' entry_id Htext E.
      apply create_entry_stored in E as (created_at & updated_at & E).
      exists created_at, updated_at. rewrite E. unfold created_vector.
      rewrite Hc, Htext, Hz. reflexivity.
    + intros entry_id title tags source w w' b E.
      apply update_entry_row in E as (current & rest & row & _ & Hrow & _ & Hvec).
      exists row. split; [exact Hrow|].
      rewrite (Hvec text c eq_refl eq_refl Hc), Hz. reflexivity.
Qed.

(** ** Retrieval *)

Lemma In_take {A : Type} (n : nat) (l : list A) (x : A) : In x (take n l) → In x l.
Proof.
  revert l. induction n as [|n IH]; intros [|y l]; cbn; try tauto.
  intros [->|H]; [by left | right; by apply IH].
Qed.

Lemma In_insert_by {A : Type} (before : A → A → bool) (x y : A) (l : list A) :
  In x (insert_by before y l) ↔ x = y ∨ In x l.
Proof.
  induction l as [|z l IH]; cbn.
  - split; intros [->|[]]; by left.
  - destruct (before z y); cbn; [rewrite IH|]; intuition congruence.
Qed.

Lemma In_sort_by {A : Type} (before : A → A → bool) (x : A) (l : list A) :
  In x (sort_by before l) ↔ In x l.
Proof.
  unfold sort_by. induction l as [|y l IH]; cbn; [tauto|].
  rewrite In_insert_by, IH. intuition congruence.
Qed.

Lemma length_insert_by {A : Type} (before : A → A → bool) (y : A) (l : list A) :
  length (insert_by before y l) = S (length l).
Proof. induction l as [|z l IH]; cbn; [done|]. destruct (before z y); cbn; by rewrite ?IH. Qed.

Lemma length_sort_by {A : Type} (before : A → A → bool) (l : list A) :
  length (sort_by before l) = length l.
Proof.
  unfold sort_by. induction l as [|y l IH]; cbn; [done|]. by rewrite length_insert_by, IH.
Qed.

Lemma for_collect_inv {A B : Type} (body : A → M B) (xs : list A) (ys : list B)
    (w w' : World) :
  for_collect xs body w = (Ok ys, w') →
  Forall (λ y, ∃ x w1 w2, In x xs ∧ body x w1 = (Ok y, w2)) ys.
Proof.
  revert ys w w'. induction xs as [|x xs IH]; intros ys w w' E.
  - apply ret_inv in E as [-> _]. constructor.
  - cbn [for_collect] in E. bind_inv E as y w1 H1. bind_inv E as ys' w2 H2.
    apply ret_inv in E as [-> _]. constructor.
    + exists x, w, w1. split; [by left | exact H1].
    + apply IH in H2. eapply Forall_impl; [exact H2|].
      intros z (x' & wa & wb & Hin & Hz). exists x', wa, wb. split; [by right | exact Hz].
Qed.

Lemma enrich_inv (ext : Externals) (topics_df : list TopicRow)
    (categories_df : list CategoryRow) (row : EntryRow) (score : Q) (r : SearchResult)
    (w w' : World) :
  enrich ext topics_df categories_df row score w = (Ok r, w') →
  sr_id r = ent_id row ∧ sr_topic_id r = ent_topic_id row ∧ sr_score r = score
  ∧ sr_title r = ent_title row ∧ sr_content r = ent_content row
  ∧ sr_source r = ent_source row.
Proof.
  unfold enrich. intros E.
  bind_inv E as topic_info w1 H1. bind_inv E as category_info w2 H2.
  bind_inv E as tags w3 H3. apply ret_inv in E as [-> _]. by repeat split.
Qed.

Lemma vector_search_inv (ext : Externals) (h : string) (query : list Q)
    (where_ : option Pred) (limit : nat) (hits : list (EntryRow * Q)) (w w' : World) :
  vector_search ext (R := EntryRow) h query where_ limit w = (Ok hits, w') →
  w_db w' = w_db w
  ∧ Forall (λ '(row, d),
              In row (db_entries (w_db w))
              ∧ match where_ with Some p => eval_pred p row = true | None => True end
              ∧ ∃ v, ent_vector row = Some v ∧ d = vector_distance ext query v)
           hits.
Proof.
  unfold vector_search. intros E.
  bind_inv E as u1 w1 H1. apply engine_call_frame in H1 as (Hdb1 & _).
  bind_inv E as tm w2 H2. apply typed_inv in H2 as (_ & -> & _).
  bind_inv E as u3 w3 H3. injection H3 as _ <-.
  destruct (fits_width _ _); [|discriminate].
  rewrite (bind_ok _ _ _ _ _ (get_db_eq _)) in E. apply ret_inv in E as [-> ->].
  split; [exact Hdb1|]. cbn [w_db add_log]. rewrite Hdb1.
  apply Forall_forall. intros [row d] Hin.
  apply list_elem_of_In, In_take, In_sort_by, list_elem_of_In in Hin.
  apply list_elem_of_omap in Hin as (row' & Hrow & Hsome).
  cbn [rt_vector entries_table] in Hsome.
  destruct (ent_vector row') as [v|] eqn:Hv; [|discriminate].
  injection Hsome as <- <-.
  apply list_elem_of_In, filter_In in Hrow as [Hrow Hpass].
  repeat split; [exact Hrow | | eauto].
  destruct where_; [exact Hpass | exact Logic.I].
Qed.

Lemma hierarchy_filter_inv (category_id topic_id : option string) (p : option Pred)
    (w w' : World) :
  hierarchy_filter category_id topic_id w = (Ok p, w') →
  w_db w' = w_db w
  ∧ (truthy topic_id = true → p = Some (PredEq "topic_id" (fmt topic_id)))
  ∧ (truthy topic_id = false → truthy category_id = true →
     topics_under (fmt category_id) (w_db w) ≠ [] →
     p = Some (PredIn "topic_id" (topics_under (fmt category_id) (w_db w)))).
Proof.
  unfold hierarchy_filter. intros E. destruct (truthy topic_id).
  { apply ret_inv in E as [-> ->]. split; [done|]. split; [done | discriminate]. }
  destruct (truthy category_id).
  2:{ apply ret_inv in E as [-> ->]. split; [done|]. split; discriminate. }
  bind_inv E as h w1 H1. apply open_table_inv in H1 as (-> & _ & Hdb1 & _).
  bind_inv E as topics w2 H2. apply search_where_inv in H2 as (_ & Htopics & Hdb2 & _).
  assert (Hids : map top_id topics = topics_under (fmt category_id) (w_db w)).
  { rewrite Htopics, Hdb1. reflexivity. }
  rewrite Hids in E.
  destruct (topics_under (fmt category_id) (w_db w)) as [|t ts] eqn:Hunder;
    apply ret_inv in E as [-> ->]; (split; [congruence|]); (split; [discriminate|]).
  - intros _ _ Hne. by destruct Hne.
  - done.
Qed.

Lemma search_entries_filtered_hits
    (ext : Externals) (self : LanceDBManager) (query : string) (limit : nat)
    (category_id topic_id : option string) (w w' : World) (results : list SearchResult) :
  truthy category_id || truthy topic_id = true →
  search_entries ext self query limit category_id topic_id w = (Ok results, w') →
  Forall (vector_hit ext self query category_id topic_id (w_db w)) results.
Proof.
  intros Hfilter E. unfold search_entries, try_except in E.
  match type of E with
  | match ?body w with _ => _ end = _ => destruct (body w) as [[rs|e] w1] eqn:Ebody
  end.
  2:{ apply ret_inv in E as [-> _]. constructor. }
  injection E as -> ->.
  bind_inv Ebody as fulltext_results w1 H1.
  apply (frames_ok _ _ _ _ _ (search_table_fulltext_read_only _ _ _ _ _)) in H1 as [Hdb1 _].
  rewrite Hfilter, andb_false_r in Ebody.
  bind_inv Ebody as qe w2 H2.
  destruct (client (embeddings self)) as [c|] eqn:Hc.
  2:{ rewrite (get_embedding_no_client ext _ query w1 Hc) in H2. discriminate. }
  rewrite (get_embedding_client ext _ c query w1 Hc) in H2. injection H2 as <- <-.
  bind_inv Ebody as h3 w3 H3. apply open_table_inv in H3 as (-> & _ & Hdb3 & _).
  bind_inv Ebody as where_ w4 H4. apply hierarchy_filter_inv in H4 as (Hdb4 & Htopic & Hcat).
  bind_inv Ebody as hits w5 H5. apply vector_search_inv in H5 as (Hdb5 & Hhits).
  bind_inv Ebody as h6 w6 H6. bind_inv Ebody as topics_df w7 H7.
  bind_inv Ebody as h8 w8 H8. bind_inv Ebody as categories_df w9 H9.
  apply for_collect_inv in Ebody.
  assert (Hd : w_db w4 = w_db w) by congruence.
  assert (Hd3 : w_db w3 = w_db w) by congruence.
  rewrite Hd in Hhits. rewrite Hd3 in Hcat.
  eapply Forall_impl; [exact Ebody|]. cbn beta.
  intros r ([row d] & wa & wb & Hin & Hr).
  apply enrich_inv in Hr as (Hid & Htid & Hscore & _).
  rewrite Forall_forall in Hhits. apply list_elem_of_In, Hhits in Hin.
  destruct Hin as (Hrow & Hpass & v & Hv & ->).
  exists row, v, c. repeat split; try done.
  - intros Ht. rewrite (Htopic Ht) in Hpass. cbn in Hpass.
    apply String.eqb_eq in Hpass. congruence.
  - intros Ht Hcid Hne. rewrite (Hcat Ht Hcid Hne) in Hpass. cbn in Hpass.
    rewrite Htid. by apply list_elem_of_In, str_in_elem_of.
Qed.

(** *** The full-text query comes first, filter or not *)

Section Logged.
Variable ev : Event.

Lemma logged_kept {A : Type} (m : M A) :
  frames read_only m → ∀ w r w', In ev (w_log w) → m w = (r, w') → In ev (w_log w').
Proof.
  intros Hm w r w' Hin E. apply Hm in E as [_ [l ->]]. apply in_or_app. by left.
Qed.

Lemma logged_bind {A B : Type} (m : M A) (f : A → M B) (w : World) :
  (∀ r w1, m w = (r, w1) → In ev (w_log w1)) →
  (∀ a, frames read_only (f a)) →
  ∀ r w', (m ≫= f) w = (r, w') → In ev (w_log w').
Proof.
  intros Hm Hf r w'. rewrite bind_unfold.
  destruct (m w) as [[a|e] w1] eqn:E; intros H.
  - eapply logged_kept; [apply Hf | apply (Hm _ _ eq_refl) | exact H].
  - injection H as <- <-. apply (Hm _ _ eq_refl).
Qed.

Lemma logged_try {A : Type} (m : M A) (h : Exn → M A) (w : World) :
  (∀ r w1, m w = (r, w1) → In ev (w_log w1)) →
  (∀ e, frames read_only (h e)) →
  ∀ r w', try_except m h w = (r, w') → In ev (w_log w').
Proof.
  intros Hm Hh r w'. unfold try_except.
  destruct (m w) as [[a|e] w1] eqn:E; intros H.
  - injection H as <- <-. apply (Hm _ _ eq_refl).
  - eapply logged_kept; [apply Hh | apply (Hm _ _ eq_refl) | exact H].
Qed.
End Logged.

Lemma fts_search_logged (ext : Externals) (query : string) (limit : nat) (w : World) :
  w_faults w = [] → is_Some (db_tables (w_db w) !! "entries") →
  ∀ r w1, fts_search ext "entries" query limit w = (r, w1) →
          In (EvFtsSearch "entries" query limit) (w_log w1).
Proof.
  intros healthy [tm Htm] r w1. unfold fts_search.
  rewrite (bind_ok _ _ _ _ _ (engine_call_healthy w healthy)).
  unfold typed. cbn [rt_name entries_table]. rewrite String.eqb_refl.
  rewrite (bind_ok _ _ _ _ _ (meta_of_found w _ _ Htm)).
  apply logged_bind.
  - intros r0 w0 [= <- <-]. cbn. apply in_or_app. right. by left.
  - intros _. frame.
Qed.

Lemma search_table_fulltext_logged (ext : Externals) (self : LanceDBManager)
    (query : string) (limit : nat) (w : World) :
  w_faults w = [] → is_Some (db_tables (w_db w) !! "entries") →
  ∀ r w1, search_table_fulltext ext self "entries" query limit w = (r, w1) →
          In (EvFtsSearch "entries" query 1) (w_log w1).
Proof.
  intros healthy Htm r w1. unfold search_table_fulltext.
  rewrite (bind_ok _ _ _ _ _ (table_names_healthy w healthy)).
  rewrite (proj2 (str_in_table_names _ _) Htm). cbn [negb].
  destruct Htm as [tm Htm].
  rewrite (bind_ok _ _ _ _ _ (open_table_healthy w healthy _ _ Htm)).
  change (assoc "entries" TEXT_COLUMNS_FOR_INDEX) with (Some ["title"; "content"]).
  cbn [for_fold].
  apply logged_bind; [|intros ?; frame].
  apply logged_bind; [|intros ?; frame].
  apply logged_try; [|intros ?; frame].
  apply logged_bind; [|intros ?; frame].
  apply fts_search_logged; eauto.
Qed.

Lemma search_entries_logged (ext : Externals) (self : LanceDBManager) (query : string)
    (limit : nat) (category_id topic_id : option string) (w : World) :
  w_faults w = [] → is_Some (db_tables (w_db w) !! "entries") →
  ∀ r w', search_entries ext self query limit category_id topic_id w = (r, w') →
          In (EvFtsSearch "entries" query 1) (w_log w').
Proof.
  intros healthy Htm. unfold search_entries.
  apply logged_try; [|intros ?; frame].
  apply logged_bind; [by apply search_table_fulltext_logged | intros ?; frame].
Qed.

Lemma try_returns {A : Type} (m : M A) (default : A) (w : World) :
  ∃ a w', try_except m (λ _, mret default) w = (Ok a, w').
Proof. unfold try_except. destruct (m w) as [[a|e] w1]; eauto. Qed.

(** C2, as the code has it.  [search_entries] always returns a list.  With
    a [topic_id] or [category_id] set, every row it returns is a hit of the
    vector search over a stored row, scored by its distance to the query
    embedding, whose [topic_id] is the requested one, or one of the topics
    of the requested category when that category has topics; the store is
    left as it was.  The full-text query is sent all the same, before
    anything else: with the engine answering and the table there, the trace
    holds it. *)
Theorem search_entries_with_filter
    (ext : Externals) (self : LanceDBManager) (query : string) (limit : nat)
    (category_id topic_id : option string) (w : World) :
  truthy category_id || truthy topic_id = true →
  (∃ results w',
     search_entries ext self query limit category_id topic_id w = (Ok results, w'))
  ∧ (∀ results w',
       search_entries ext self query limit category_id topic_id w = (Ok results, w') →
       Forall (vector_hit ext self query category_id topic_id (w_db w)) results
       ∧ w_db w' = w_db w)
  ∧ (w_faults w = [] → is_Some (db_tables (w_db w) !! "entries") →
     ∀ r w', search_entries ext self query limit category_id topic_id w = (r, w') →
             In (EvFtsSearch "entries" query 1) (w_log w')).
Proof.
  intros Hfilter. split; [apply try_returns|]. split.
  - intros results w' E. split.
    + eapply search_entries_filtered_hits; eauto.
    + eapply (frames_ok _ _ _ _ _ (search_entries_read_only _ _ _ _ _ _)), E.
  - intros healthy Htm. by apply search_entries_logged.
Qed.

(** ** Runs on a healthy engine *)

Lemma calm_refl (w : World) : calm w w.
Proof. by split. Qed.

Lemma calm_trans (w1 w2 w3 : World) : calm w1 w2 → calm w2 w3 → calm w1 w3.
Proof. intros [F1 T1] [F2 T2]. split; auto. Qed.

Lemma calm_ready (w w' : World) : calm w w' → ready w → ready w'.
Proof. intros [F T] [Hf Ht]. split; auto. Qed.

Ltac frame_law ::=
  first [ exact untouched_refl | exact untouched_trans
        | exact read_only_refl | exact read_only_trans
        | exact rows_kept_refl | exact rows_kept_trans
        | exact calm_refl | exact calm_trans ].

Lemma engine_call_calm : frames calm engine_call.
Proof.
  intros w r w'. unfold engine_call.
  destruct (w_faults w) as [|[] fs] eqn:E; intros [= <- <-]; split; cbn; auto;
    rewrite E; discriminate.
Qed.

Lemma get_db_calm : frames calm get_db.
Proof. intros w r w' [= <- <-]. apply calm_refl. Qed.

Lemma log_event_calm (e : Event) : frames calm (log_event e).
Proof. intros w r w' [= <- <-]. by split. Qed.

Lemma new_uuid_calm (ext : Externals) : frames calm (new_uuid ext).
Proof. intros w r w' [= <- <-]. by split. Qed.

Lemma now_calm (ext : Externals) : frames calm (now ext).
Proof. intros w r w' [= <- <-]. by split. Qed.

Lemma modify_rows_calm (f : DB → DB) :
  (∀ d, db_tables (f d) = db_tables d) → frames calm (modify_db f).
Proof. intros Hf w r w' [= <- <-]. split; [done|]. intros name. cbn. by rewrite Hf. Qed.

Lemma insert_table_calm (h : string) (tm : TableMeta) :
  frames calm (modify_db (set_tables (insert h tm))).
Proof.
  intros w r w' [= <- <-]. split; [done|]. intros name Hn. cbn.
  apply lookup_insert_is_Some. destruct (decide (h = name)); auto.
Qed.

#[local] Hint Resolve engine_call_calm get_db_calm log_event_calm new_uuid_calm now_calm
  insert_table_calm : frames.

Lemma meta_of_calm (h : string) : frames calm (meta_of h).
Proof. unfold meta_of. frame. Qed.

Lemma table_names_calm : frames calm table_names.
Proof. unfold table_names. frame. Qed.

Lemma open_table_calm (name : string) : frames calm (open_table name).
Proof. unfold open_table. frame. Qed.

#[local] Hint Resolve meta_of_calm table_names_calm open_table_calm : frames.

Lemma schema_of_calm (h : string) : frames calm (schema_of h).
Proof. unfold schema_of. frame. Qed.

Lemma count_rows_calm (h : string) : frames calm (count_rows h).
Proof. unfold count_rows. frame. Qed.

Lemma create_fts_index_calm (h column : string) : frames calm (create_fts_index h column).
Proof. unfold create_fts_index. frame. Qed.

Lemma create_index_calm (h column : string) (spec : IndexSpec) :
  frames calm (create_index h column spec).
Proof. unfold create_index. frame. Qed.

Lemma create_table_calm (name : string) (schema : list Field) :
  frames calm (create_table name schema).
Proof. unfold create_table. frame. Qed.

Lemma create_table_rows_kept (name : string) (schema : list Field) :
  frames rows_kept (create_table name schema).
Proof.
  unfold create_table. frame.
Qed.

#[local] Hint Resolve schema_of_calm count_rows_calm create_fts_index_calm
  create_index_calm create_table_calm create_table_rows_kept : frames.

Section TypedCalm.
Context {R : Type} `{RowTable R}.

Lemma typed_calm (h : string) : frames calm (typed (R := R) h).
Proof. unfold typed. destruct (String.eqb h rt_name); frame. Qed.

Hint Resolve typed_calm : frames.

Lemma to_pandas_calm (h : string) : frames calm (to_pandas (R := R) h).
Proof. unfold to_pandas. frame. Qed.

Lemma search_where_calm (h : string) (p : Pred) : frames calm (search_where (R := R) h p).
Proof. unfold search_where. frame. Qed.

Lemma delete_calm (h : string) (p : Pred) : frames calm (delete (R := R) h p).
Proof.
  unfold delete. frame. apply modify_rows_calm. intros d. apply rt_tables.
Qed.

Lemma add_calm (h : string) (rows : list R) : frames calm (add (R := R) h rows).
Proof.
  unfold add. frame. apply modify_rows_calm. intros d. apply rt_tables.
Qed.
End TypedCalm.

#[local] Hint Resolve typed_calm to_pandas_calm search_where_calm delete_calm add_calm
  : frames.

Lemma create_inverted_index_calm (self : LanceDBManager) (table_name column_name : string) :
  frames calm (create_inverted_index self table_name column_name).
Proof. unfold create_inverted_index. frame. Qed.

Lemma create_vector_index_calm (self : LanceDBManager) (table_name column_name : string) :
  frames calm (create_vector_index self table_name column_name).
Proof. unfold create_vector_index. frame. Qed.

#[local] Hint Resolve create_inverted_index_calm create_vector_index_calm : frames.

Lemma create_or_update_indices_calm (self : LanceDBManager) (table_name : string) :
  frames calm (_create_or_update_inverted_indices self table_name).
Proof. unfold _create_or_update_inverted_indices. frame. Qed.

Lemma get_pa_schema_calm (self : LanceDBManager) (table_name : string) :
  frames calm (_get_pa_schema self table_name).
Proof. unfold _get_pa_schema. frame. Qed.

#[local] Hint Resolve create_or_update_indices_calm get_pa_schema_calm : frames.

Lemma ensure_table_exists_calm (self : LanceDBManager) (tables : list string) :
  frames calm (_ensure_table_exists self tables).
Proof. unfold _ensure_table_exists. frame. Qed.

Lemma ensure_table_exists_rows_kept (self : LanceDBManager) (tables : list string) :
  frames rows_kept (_ensure_table_exists self tables).
Proof. unfold _ensure_table_exists. frame. Qed.

Lemma manager_init_rows_kept (ext : Externals) : frames rows_kept (LanceDBManager_init ext).
Proof.
  unfold LanceDBManager_init. cbv zeta. frame.
Qed.

(** *** Composition *)

Lemma returns_ret {A : Type} (Q : A → Prop) (a : A) : Q a → returns Q (mret a : M A).
Proof. intros Ha w _. by exists a, w. Qed.

Lemma returns_bind {A B : Type} (P : A → Prop) (Q : B → Prop) (m : M A) (f : A → M B) :
  returns P m → frames calm m → (∀ a, P a → returns Q (f a)) → returns Q (m ≫= f).
Proof.
  intros Hm Hc Hf w Hw. destruct (Hm w Hw) as (a & w1 & E & Ha).
  rewrite (bind_ok _ _ _ _ _ E). apply Hf; [exact Ha|].
  eapply calm_ready; [eapply Hc, E | exact Hw].
Qed.

(** A [try] whose body returns. *)
Lemma returns_try {A : Type} (Q : A → Prop) (m : M A) (h : Exn → M A) :
  returns Q m → returns Q (try_except m h).
Proof.
  intros Hm w Hw. destruct (Hm w Hw) as (a & w' & E & Ha).
  exists a, w'. split; [by apply try_ok | exact Ha].
Qed.

(** A [try] whose handler returns: it returns, whatever the body does. *)
Lemma returns_handled {A : Type} (m : M A) (h : Exn → M A) :
  frames calm m → (∀ e, returns any (h e)) → returns any (try_except m h).
Proof.
  intros Hc Hh w Hw. unfold try_except. destruct (m w) as [[a|e] w1] eqn:E.
  - by exists a, w1.
  - apply Hh. eapply calm_ready; [eapply Hc, E | exact Hw].
Qed.

Lemma returns_for_each {A : Type} (xs : list A) (body : A → M unit) :
  (∀ x, In x xs → returns any (body x)) → (∀ x, frames calm (body x)) →
  returns any (for_each xs body).
Proof.
  intros Hb Hc. induction xs as [|x xs IH]; [by apply returns_ret|].
  cbn [for_each]. eapply returns_bind; [apply Hb; by left | apply Hc | intros _ _].
  apply IH. intros y Hy. apply Hb. by right.
Qed.

(** *** The engine calls *)

Lemma ready_healthy (w : World) : ready w → w_faults w = [].
Proof. by intros [H _]. Qed.

Lemma returns_engine_call : returns any engine_call.
Proof. intros w Hw. exists tt, w. split; [|done]. apply engine_call_healthy, ready_healthy, Hw. Qed.

Lemma returns_table_names :
  returns (λ names, ∀ name, In name ["categories"; "topics"; "entries"] →
                            str_in name names = true)
          table_names.
Proof.
  intros w Hw. eexists _, w. split; [apply table_names_healthy, ready_healthy, Hw|].
  intros name Hn. apply str_in_table_names, Hw, Hn.
Qed.

Lemma returns_open_table (name : string) :
  In name ["categories"; "topics"; "entries"] → returns (eq name) (open_table name).
Proof.
  intros Hn w Hw. destruct (proj2 Hw name Hn) as [tm Htm].
  exists name, w. split; [|done].
  eapply open_table_healthy; [apply ready_healthy, Hw | exact Htm].
Qed.

Section TypedReturns.
Context {R : Type} `{RowTable R}.
Hypothesis known : In rt_name ["categories"; "topics"; "entries"].

Lemma returns_typed : returns any (typed (R := R) rt_name).
Proof.
  intros w Hw. destruct (proj2 Hw rt_name known) as [tm Htm].
  exists tm, w. split; [|done]. unfold typed. rewrite String.eqb_refl. by apply meta_of_found.
Qed.

Lemma returns_search_where (p : Pred) : returns any (search_where (R := R) rt_name p).
Proof.
  unfold search_where.
  eapply returns_bind; [apply returns_engine_call | frame | intros _ _].
  eapply returns_bind; [apply returns_typed | frame | intros _ _].
  intros w _. eexists _, w. by split.
Qed.

Lemma returns_delete (p : Pred) : returns any (delete (R := R) rt_name p).
Proof.
  unfold delete.
  eapply returns_bind; [apply returns_engine_call | frame | intros _ _].
  eapply returns_bind; [apply returns_typed | frame | intros _ _].
  intros w _. eexists _, _. by split.
Qed.
End TypedReturns.

(** With the engine answering and the three tables there,
    [delete_category] returns [True]. *)
Lemma delete_category_returns (self : LanceDBManager) (category_id : string) :
  returns (eq true) (delete_category self category_id).
Proof.
  assert (Hc : In "categories" ["categories"; "topics"; "entries"]) by (cbn; auto).
  assert (Ht : In "topics" ["categories"; "topics"; "entries"]) by (cbn; auto).
  assert (He : In "entries" ["categories"; "topics"; "entries"]) by (cbn; auto).
  unfold delete_category. apply returns_try.
  eapply returns_bind; [by apply returns_open_table | frame | intros h1 <-].
  eapply returns_bind;
    [apply (@returns_search_where TopicRow topics_table Ht) | frame | intros topics _].
  eapply returns_bind; [by apply returns_open_table | frame | intros h2 <-].
  eapply (returns_bind any).
  { destruct (map top_id topics); [by apply returns_ret|].
    eapply returns_bind;
      [apply (@returns_search_where EntryRow entries_table He) | frame | intros entries _].
    apply returns_for_each; [intros id _ | intros id; frame].
    apply (@returns_delete EntryRow entries_table He). }
  { frame. }
  intros _ _.
  eapply returns_bind.
  { apply returns_for_each; [intros id _ | intros id; frame].
    apply (@returns_delete TopicRow topics_table Ht). }
  { frame. }
  intros _ _.
  eapply returns_bind; [by apply returns_open_table | frame | intros h3 <-].
  eapply returns_bind; [apply (@returns_delete CategoryRow categories_table Hc) | frame | intros _ _].
  by apply returns_ret.
Qed.

(** The index builders swallow what the engine raises. *)
Lemma returns_create_inverted_index (self : LanceDBManager) (table_name column_name : string) :
  returns any (create_inverted_index self table_name column_name).
Proof.
  unfold create_inverted_index.
  eapply returns_bind; [apply returns_table_names | frame | intros names _].
  destruct (negb _); [by apply returns_ret|].
  apply returns_handled; [frame | intros e; by apply returns_ret].
Qed.

Lemma returns_create_vector_index (self : LanceDBManager) (table_name column_name : string) :
  returns any (create_vector_index self table_name column_name).
Proof.
  unfold create_vector_index.
  eapply returns_bind; [apply returns_table_names | frame | intros names _].
  destruct (negb _); [by apply returns_ret|].
  apply returns_handled; [frame | intros e; by apply returns_ret].
Qed.

Lemma returns_create_or_update_indices (self : LanceDBManager) (table_name : string) :
  returns any (_create_or_update_inverted_indices self table_name).
Proof.
  unfold _create_or_update_inverted_indices.
  eapply (returns_bind any).
  - destruct (assoc table_name TEXT_COLUMNS_FOR_INDEX); [|by apply returns_ret].
    apply returns_for_each; [intros c _ | intros c; frame].
    eapply returns_bind; [apply returns_create_inverted_index | frame | intros _ _].
    by apply returns_ret.
  - frame.
  - intros _ _.
    destruct (assoc table_name VECTOR_COLUMNS_FOR_INDEX); [|by apply returns_ret].
    apply returns_for_each; [intros c _ | intros c; frame].
    eapply returns_bind; [apply returns_create_vector_index | frame | intros _ _].
    by apply returns_ret.
Qed.

(** With the engine answering and the three tables there, whatever their
    schemas, [LanceDBManager.__init__] builds the manager. *)
Lemma manager_init_returns (ext : Externals) :
  returns (eq (mkManager (OpenAIEmbeddings_default ext))) (LanceDBManager_init ext).
Proof.
  unfold LanceDBManager_init. cbv zeta.
  eapply returns_bind; [apply returns_engine_call | frame | intros _ _].
  eapply (returns_bind any); [| apply ensure_table_exists_calm | intros _ _; by apply returns_ret].
  unfold _ensure_table_exists.
  apply returns_for_each; [intros table Hin | intros table; frame].
  eapply returns_bind; [apply returns_table_names | frame | intros names Hnames].
  rewrite (Hnames table Hin). cbn [negb].
  apply returns_create_or_update_indices.
Qed.

(** ** Opening a knowledge base over an existing table *)

Lemma table_names_inv (w w' : World) (names : list string) :
  table_names w = (Ok names, w') →
  names = elements (dom (db_tables (w_db w))) ∧ untouched w w'.
Proof.
  unfold table_names. intros E. bind_inv E as u w1 H1.
  apply engine_call_frame in H1 as (Hdb & Hlog & _).
  rewrite (bind_ok _ _ _ _ _ (get_db_eq _)) in E. apply ret_inv in E as [-> ->].
  rewrite Hdb. by repeat split.
Qed.

Lemma schema_of_inv (h : string) (w w' : World) (schema : list Field) :
  schema_of h w = (Ok schema, w') →
  ∃ tm, db_tables (w_db w) !! h = Some tm ∧ schema = tm_schema tm.
Proof.
  unfold schema_of. intros E. bind_inv E as u w1 H1.
  apply engine_call_frame in H1 as (Hdb & _).
  bind_inv E as tm w2 H2. apply meta_of_inv in H2 as [-> Htm].
  apply ret_inv in E as [-> _]. exists tm. by rewrite <- Hdb.
Qed.

Lemma vector_width_field (schema : list Field) (n : Z) :
  vector_width schema = Some n →
  ∃ f, vector_field schema = Some f ∧ field_type f = pa_list_float32 (Some n).
Proof.
  unfold vector_width. destruct (vector_field schema) as [f|]; [|discriminate].
  destruct (field_type f) as [|[m|]] eqn:Hty; try discriminate.
  intros [= ->]. eauto.
Qed.

Lemma list_size_of_untouched (t : ArrowType) : frames untouched (list_size_of t).
Proof. unfold list_size_of. frame. Qed.

#[local] Hint Resolve list_size_of_untouched : frames.

Section ExistingTable.
Variable ext : Externals.
Variables (table_name : string) (create_if_not_exists : bool).
Variables (w : World) (tm : TableMeta).
Hypothesis table_there : db_tables (w_db w) !! table_name = Some tm.

Lemma knowledge_base_init_raises :
  vector_width (tm_schema tm) ≠ Some (dimensions (OpenAIEmbeddings_default ext)) →
  ∀ r w', KnowledgeBase_init ext table_name create_if_not_exists w = (r, w') →
          (∃ e, r = Raise e) ∧ untouched w w'.
Proof.
  intros Hwidth r w' E. unfold KnowledgeBase_init in E.
  rewrite bind_unfold in E.
  destruct (verify_openai_embeddings ext w) as [[verified|e] w1] eqn:Ev.
  2:{ injection E as <- <-. split; [eauto|].
      eapply (frames_ok _ _ _ _ _ (verify_openai_embeddings_untouched ext)), Ev. }
  apply (frames_ok _ _ _ _ _ (verify_openai_embeddings_untouched ext)) in Ev.
  destruct verified; cbn [negb] in E.
  2:{ injection E as <- <-. eauto. }
  rewrite bind_unfold in E.
  destruct (engine_call w1) as [[u|e] w2] eqn:Ec.
  2:{ injection E as <- <-. split; [eauto|].
      eapply untouched_trans; [exact Ev|].
      eapply (frames_ok _ _ _ _ _ engine_call_untouched), Ec. }
  apply (frames_ok _ _ _ _ _ engine_call_untouched) in Ec.
  cbv zeta in E. rewrite bind_unfold in E.
  destruct (table_names w2) as [[names|e] w3] eqn:Et.
  2:{ injection E as <- <-. split; [eauto|].
      eapply untouched_trans; [exact Ev|]. eapply untouched_trans; [exact Ec|].
      eapply (frames_ok _ _ _ _ _ table_names_untouched), Et. }
  apply table_names_inv in Et as [-> Ht].
  assert (U3 : untouched w w3)
    by (eapply untouched_trans; [exact Ev|]; eapply untouched_trans; eauto).
  assert (Htm3 : db_tables (w_db w3) !! table_name = Some tm)
    by (destruct U3 as [-> _]; exact table_there).
  assert (Htm2 : is_Some (db_tables (w_db w2) !! table_name)).
  { destruct Ec as [Hd2 _], Ev as [Hd1 _]. rewrite Hd2, Hd1. eauto. }
  rewrite (proj2 (str_in_table_names _ _) Htm2) in E.
  unfold try_except in E.
  match type of E with
  | match ?body w3 with _ => _ end = _ =>
      assert (Hframe : frames untouched body) by frame;
      destruct (body w3) as [[kb|e] w4] eqn:Eb
  end.
  - exfalso.
    bind_inv Eb as table w5 H5. apply open_table_inv in H5 as (-> & _ & Hdb5 & _).
    bind_inv Eb as schema w6 H6. apply schema_of_inv in H6 as (tm' & Htm' & ->).
    rewrite Hdb5, Htm3 in Htm'. injection Htm' as <-.
    bind_inv Eb as u7 w7 H7.
    unfold vector_width in Hwidth.
    destruct (vector_field (tm_schema tm)) as [f|]; [|discriminate].
    bind_inv H7 as n w8 H8.
    destruct (field_type f) as [|[m|]]; try discriminate.
    apply ret_inv in H8 as [-> ->].
    destruct (Z.eqb_spec m (dimensions (OpenAIEmbeddings_default ext))) as [->|];
      [by destruct Hwidth | discriminate].
  - injection E as <- <-. split; [eauto|].
    eapply untouched_trans; [exact U3|]. eapply Hframe, Eb.
Qed.

Lemma knowledge_base_init_mismatch (n : Z) (w1 : World) :
  vector_width (tm_schema tm) = Some n → n ≠ dimensions (OpenAIEmbeddings_default ext) →
  verify_openai_embeddings ext w = (Ok true, w1) → w_faults w1 = [] →
  KnowledgeBase_init ext table_name create_if_not_exists w
    = (Raise (dimension_mismatch n (dimensions (OpenAIEmbeddings_default ext))), w1).
Proof.
  intros Hwidth Hne Ev healthy. unfold KnowledgeBase_init.
  rewrite (bind_ok _ _ _ _ _ Ev). cbn [negb].
  apply (frames_ok _ _ _ _ _ (verify_openai_embeddings_untouched ext)) in Ev as [Hdb _].
  assert (Htm1 : db_tables (w_db w1) !! table_name = Some tm) by (by rewrite Hdb).
  rewrite (bind_ok _ _ _ _ _ (engine_call_healthy w1 healthy)). cbv zeta.
  rewrite (bind_ok _ _ _ _ _ (table_names_healthy w1 healthy)).
  rewrite (proj2 (str_in_table_names _ _) (ex_intro _ tm Htm1)).
  apply vector_width_field in Hwidth as (f & Hf & Hty).
  rewrite (try_raise _ _ w1 w1
           (width_mismatch n (dimensions (OpenAIEmbeddings_default ext))));
  [reflexivity|].
  rewrite (bind_ok _ _ _ _ _ (open_table_healthy w1 healthy _ _ Htm1)).
  rewrite (bind_ok _ _ _ _ _ (schema_of_healthy w1 healthy _ _ Htm1)).
  rewrite Hf, Hty. cbn [list_size_of].
  apply bind_raise. rewrite (bind_ok _ (λ _, _) w1 w1 n eq_refl).
  destruct (Z.eqb_spec n (dimensions (OpenAIEmbeddings_default ext))) as [|_]; [done|].
reflexivity.
Qed.
End ExistingTable.

(** C6, as the code has it.  A [KnowledgeBase] opened over an existing
    table whose vector column has another width than the model's never gets
    built: [__init__] raises and leaves database and trace as they were.
    Once the embeddings check has passed and the engine answers, what it
    raises is the dimension-mismatch error.  The check is
    [KnowledgeBase]'s: over the same store, [LanceDBManager.__init__] looks
    at no schema and, with the engine answering and its three tables there,
    builds the manager and leaves every row as it was. *)
Theorem knowledge_base_rejects_other_width
    (ext : Externals) (table_name : string) (create_if_not_exists : bool)
    (w : World) (tm : TableMeta) :
  db_tables (w_db w) !! table_name = Some tm →
  vector_width (tm_schema tm) ≠ Some (dimensions (OpenAIEmbeddings_default ext)) →
  (∃ e w',
     KnowledgeBase_init ext table_name create_if_not_exists w = (Raise e, w')
     ∧ w_db w' = w_db w ∧ w_log w' = w_log w)
  ∧ (∀ n w1,
       vector_width (tm_schema tm) = Some n →
       verify_openai_embeddings ext w = (Ok true, w1) → w_faults w1 = [] →
       KnowledgeBase_init ext table_name create_if_not_exists w
       = (Raise (dimension_mismatch n (dimensions (OpenAIEmbeddings_default ext))), w1))
  ∧ (ready w →
     ∃ w', LanceDBManager_init ext w = (Ok (mkManager (OpenAIEmbeddings_default ext)), w')
           ∧ rows_kept w w').
Proof.
  intros Htm Hwidth. split; [|split].
  - destruct (KnowledgeBase_init ext table_name create_if_not_exists w) as [r w'] eqn:E.
    destruct (knowledge_base_init_raises ext _ _ _ _ Htm Hwidth _ _ E) as [[e ->] [Hdb Hlog]].
    eauto.
  - intros n w1 Hn Ev healthy.
    eapply knowledge_base_init_mismatch; eauto. congruence.
  - intros Hready. destruct (manager_init_returns ext w Hready) as (self & w' & E & <-).
    exists w'. split; [exact E|]. eapply manager_init_rows_kept, E.
Qed.

(** ** The answer pipeline *)

Lemma load_name_s (w : World) : load_name "s" w = (Raise (NameError "s"), w).
Proof. reflexivity. Qed.

(** Whatever the question and the store, [answer_question] comes back with
    an empty [sources]: with candidates in hand it runs into the name [s]. *)
Lemma answer_question_no_sources
    (ext : Externals) (self : QAProcessor) (user_question : string) (max_results : nat)
    (relevance_threshold : Q) (w : World) :
  ∃ a w',
    answer_question ext self user_question max_results relevance_threshold w
    = (Ok (mkAnswer a []), w').
Proof.
  unfold answer_question, try_except.
  match goal with
  | |- ∃ a w', match ?body w with _ => _ end = _ =>
      destruct (body w) as [[ans|e] w1] eqn:E
  end.
  - assert (Hans : ans = no_information).
    { cbv zeta in E. bind_inv E as p w2 H2. destruct p as [self' search_query].
      bind_inv E as results w3 H3.
      destruct results as [|c cs]; [by apply ret_inv in E as [-> _]|].
      bind_inv E as filtered w4 H4.
      destruct filtered as [|d ds]; [by apply ret_inv in E as [-> _]|].
      bind_inv E as u w5 H5. rewrite load_name_s in H5. discriminate. }
    subst ans. eexists _, _. reflexivity.
  - eexists _, _. reflexivity.
Qed.

Lemma for_collect_pure {A B : Type} (body : A → M B) (g : A → B) (xs : list A) :
  (∀ x, In x xs → ∀ w, body x w = (Ok (g x), w)) →
  ∀ w, for_collect xs body w = (Ok (map g xs), w).
Proof.
  induction xs as [|x xs IH]; intros Hb w; [reflexivity|].
  cbn [for_collect map]. rewrite (bind_ok _ _ _ _ _ (Hb x (or_introl eq_refl) w)).
  rewrite (bind_ok _ _ _ _ _ (IH (λ y Hy, Hb y (or_intror Hy)) w)). reflexivity.
Qed.

Lemma for_each_pure {A : Type} (body : A → M unit) (xs : list A) :
  (∀ x, In x xs → ∀ w, body x w = (Ok tt, w)) →
  ∀ w, for_each xs body w = (Ok tt, w).
Proof.
  induction xs as [|x xs IH]; intros Hb w; [reflexivity|].
  cbn [for_each]. rewrite (bind_ok _ _ _ _ _ (Hb x (or_introl eq_refl) w)).
  apply IH. intros y Hy. apply Hb. by right.
Qed.

Lemma filter_m_none {A : Type} (cond : A → M bool) (xs : list A) :
  (∀ x, In x xs → ∀ w, cond x w = (Ok false, w)) →
  ∀ w, filter_m cond xs w = (Ok [], w).
Proof.
  induction xs as [|x xs IH]; intros Hc w; [reflexivity|].
  cbn [filter_m]. rewrite (bind_ok _ _ _ _ _ (Hc x (or_introl eq_refl) w)).
  rewrite (bind_ok _ _ _ _ _ (IH (λ y Hy, Hc y (or_intror Hy)) w)). reflexivity.
Qed.

Lemma sort_by_keyed {A : Type} (key : A → Q) (l : list A) :
  sort_by (ascending snd) (map (λ x, (x, key x)) l)
  = map (λ x, (x, key x)) (sort_by (ascending key) l).
Proof.
  unfold sort_by. induction l as [|x l IH]; [reflexivity|].
  cbn [map fold_right]. rewrite IH.
  generalize (fold_right (insert_by (ascending key)) [] l). intros sorted.
  induction sorted as [|y sorted IHs]; [reflexivity|].
  cbn. unfold ascending at 1 3. cbn.
  destruct (Qltb (key y) (key x)); cbn; [by rewrite IHs | reflexivity].
Qed.

Lemma score_or_float (default s : Q) (doc : Candidate) (w : World) :
  c_score doc = Some (Some s) → score_or default doc w = (Ok s, w).
Proof. intros H. unfold score_or. rewrite H. reflexivity. Qed.

Lemma sorted_by_score_eq (docs : list Candidate) (w : World) :
  Forall (λ doc, ∃ s, c_score doc = Some (Some s)) docs →
  sorted_by_score docs w = (Ok (lowest_scores_first docs), w).
Proof.
  intros Hall. unfold sorted_by_score.
  rewrite (bind_ok _ _ w w (map (λ doc, (doc, score_of doc)) docs)).
  - unfold lowest_scores_first. rewrite sort_by_keyed, map_map. cbn. by rewrite map_id.
  - apply for_collect_pure. intros doc Hin w0.
    rewrite Forall_forall in Hall. apply list_elem_of_In, Hall in Hin as [s Hs].
    rewrite (bind_ok _ _ _ _ _ (score_or_float 2 s doc w0 Hs)).
    unfold score_of. rewrite Hs. reflexivity.
Qed.

Lemma none_relevant_scored (t : Q) (docs : list Candidate) :
  none_relevant t docs → Forall (λ doc, ∃ s, c_score doc = Some (Some s)) docs.
Proof. intros H. eapply Forall_impl; [exact H|]. intros doc (s & Hs & _). eauto. Qed.

Lemma select_results_fallback (search_results : list Candidate) (relevance_threshold : Q)
    (w : World) :
  search_results ≠ [] → none_relevant relevance_threshold search_results →
  select_results search_results relevance_threshold w = (Ok (take 2 search_results), w).
Proof.
  intros Hne Hall. unfold select_results.
  rewrite (bind_ok _ _ w w []).
  - destruct search_results; [done | reflexivity].
  - apply filter_m_none. intros doc Hin w0.
    unfold none_relevant in Hall. rewrite Forall_forall in Hall.
    apply list_elem_of_In, Hall in Hin as (s & Hs & Hlt).
    rewrite Hs. cbn [subscript]. rewrite !ret_bind. cbn [as_float]. rewrite ret_bind.
    by rewrite Hlt.
Qed.

Lemma select_docs_fallback (docs : list Candidate) (relevance_threshold : Q) (w : World) :
  none_relevant relevance_threshold docs →
  select_docs docs relevance_threshold w = (Ok (take 5 (lowest_scores_first docs)), w).
Proof.
  intros Hall. unfold select_docs.
  assert (Hscore : forallb has_score docs = true).
  { apply forallb_forall. intros doc Hin.
    unfold none_relevant in Hall. rewrite Forall_forall in Hall.
    apply list_elem_of_In, Hall in Hin as (s & Hs & _). unfold has_score. by rewrite Hs. }
  rewrite Hscore. rewrite (bind_ok _ _ w w []).
  - rewrite (bind_ok _ _ _ _ _ (sorted_by_score_eq docs w (none_relevant_scored _ _ Hall))).
    reflexivity.
  - apply filter_m_none. intros doc Hin w0.
    unfold none_relevant in Hall. rewrite Forall_forall in Hall.
    apply list_elem_of_In, Hall in Hin as (s & Hs & Hlt).
    rewrite (bind_ok _ _ _ _ _ (score_or_float 2 s doc w0 Hs)). by rewrite Hlt.
Qed.

Lemma take_nonempty {A : Type} (n : nat) (l : list A) : l ≠ [] → take (S n) l ≠ [].
Proof. destruct l; [done | discriminate]. Qed.

Lemma sort_by_nonempty {A : Type} (before : A → A → bool) (l : list A) :
  l ≠ [] → sort_by before l ≠ [].
Proof.
  intros Hne Hnil. apply (f_equal length) in Hnil. rewrite length_sort_by in Hnil.
  destruct l; [done | discriminate].
Qed.

Lemma first_doc_text_ok (docs : list Candidate) :
  docs ≠ [] → ∃ t, ∀ w, first_doc_text docs w = (Ok t, w).
Proof. destruct docs as [|d ds]; [done|]. intros _. eexists. intros w. reflexivity. Qed.

(** The stages of [answer_question_with_docs] after the empty-docs test,
    with the generation stage left open. *)
Lemma with_docs_pipeline
    (step : list Candidate → list (string * Source) → M string)
    (docs : list Candidate) (relevance_threshold : Q) (w : World) :
  none_relevant relevance_threshold docs →
  Forall (λ doc, c_text doc ≠ Some None) docs →
  (∀ formatted, ∃ a, step (take 5 (lowest_scores_first docs)) formatted w = (Ok a, w)) →
  ∃ a,
    (for_each docs (λ doc, _ ← as_str (dict_get (c_text doc) (Some "")); mret tt) ;;
     filtered_docs ← select_docs docs relevance_threshold;
     formatted ← for_collect filtered_docs format_doc;
     answer ← step filtered_docs formatted;
     mret (mkAnswer answer (map snd formatted))) w
    = (Ok (mkAnswer a (map source_of_doc (take 5 (lowest_scores_first docs)))), w).
Proof.
  intros Hall Htext Hstep.
  set (selected := take 5 (lowest_scores_first docs)) in *.
  assert (Hsel : ∀ doc, In doc selected → In doc docs).
  { intros doc Hin. by apply In_take, In_sort_by in Hin. }
  set (format := λ doc : Candidate,
         ("Content: " +:+ fmt (dict_get (c_text doc) (Some "")) +:+ nl +:+ "Source: "
            +:+ fmt (dict_get (c_title doc) (Some "Untitled")) +:+ " ("
            +:+ fmt (dict_get (c_source doc) (Some "Unknown")) +:+ ")" +:+ nl,
          source_of_doc doc)).
  destruct (Hstep (map format selected)) as [a Ha]. exists a.
  rewrite (bind_ok _ _ w w tt).
  2:{ apply for_each_pure. intros doc Hin w0.
      rewrite Forall_forall in Htext. apply list_elem_of_In, Htext in Hin.
      destruct (c_text doc) as [[t|]|]; [reflexivity | done | reflexivity]. }
  rewrite (bind_ok _ _ _ _ _ (select_docs_fallback docs relevance_threshold w Hall)).
  fold selected.
  rewrite (bind_ok _ _ w w (map format selected)).
  2:{ apply for_collect_pure. intros doc Hin w0. unfold format_doc.
      unfold none_relevant in Hall. rewrite Forall_forall in Hall.
      apply Hsel, list_elem_of_In, Hall in Hin as (s & Hs & _).
      rewrite (bind_ok _ _ _ _ _ (score_or_float 0 s doc w0 Hs)).
      unfold format, source_of_doc, score_of. rewrite Hs. reflexivity. }
  rewrite (bind_ok _ _ _ _ _ Ha). rewrite map_map. reflexivity.
Qed.

(** C3, as the code has it.  When no candidate passes the threshold,
    [answer_question] falls back to the first two candidates in the order
    retrieval gave them.  [answer_question_with_docs] falls back to the up
    to five docs of lowest score and returns an answer whose [sources] has
    one element for each of them, so is not empty. *)
Theorem relevance_fallback
    (ext : Externals) (self : QAProcessor) (user_question : string)
    (docs : list Candidate) (relevance_threshold : Q) (w : World) :
  docs ≠ [] → none_relevant relevance_threshold docs →
  select_results docs relevance_threshold w = (Ok (take 2 docs), w)
  ∧ (Forall (λ doc, c_text doc ≠ Some None) docs →
     ∃ a,
       answer_question_with_docs ext self user_question docs relevance_threshold w
       = (Ok (mkAnswer a (map source_of_doc (take 5 (lowest_scores_first docs)))), w)
       ∧ map source_of_doc (take 5 (lowest_scores_first docs)) ≠ []).
Proof.
  intros Hne Hall. split; [by apply select_results_fallback|].
  intros Htext.
  assert (Hsel_ne : take 5 (lowest_scores_first docs) ≠ [])
    by (by apply take_nonempty, sort_by_nonempty).
  destruct (first_doc_text_ok _ Hsel_ne) as [t Ht].
  assert (Hsources : map source_of_doc (take 5 (lowest_scores_first docs)) ≠ []).
  { destruct (take 5 (lowest_scores_first docs)); [done | discriminate]. }
  unfold answer_question_with_docs. cbv zeta.
  destruct docs as [|d0 docs0] eqn:Hdocs; [done|]. rewrite <- Hdocs in *. clear Hdocs.
  match goal with
  | |- ∃ a, try_except (_ ;; filtered_docs ← _; formatted ← _; answer ← @?step filtered_docs formatted; _) _ w = _ ∧ _ =>
      destruct (with_docs_pipeline step docs relevance_threshold w Hall Htext) as [a Ha]
  end.
  - intros formatted. cbv beta.
    destruct (qa_client (_ensure_client_initialized ext self)) as [c|].
    + match goal with
      | |- context [call ?r] => destruct r as [e|response]
      end.
      * erewrite try_raise by reflexivity.
        rewrite (bind_ok _ _ _ _ _ (Ht w)). eexists. reflexivity.
      * erewrite try_ok by reflexivity. eexists. reflexivity.
    + rewrite (bind_ok _ _ _ _ _ (Ht w)). eexists. reflexivity.
  - exists a. split; [|exact Hsources]. apply try_ok. exact Ha.
Qed.

(** * The properties at concrete stores *)

(** ** Vector index *)

Lemma create_vector_index_policy_witness :
  let self := sample_manager None 1536 in
  let w := sample_world 1536 [] [] [] (repeat standup 9) in
  let tm := mkMeta (entries_schema 1536) [] [] in
  w_faults w = []
  ∧ db_tables (w_db w) !! "entries" = Some tm
  ∧ str_in "vector" (map field_name (tm_schema tm)) = true
  ∧ create_vector_index self "entries" "vector" w
    = (Ok true,
       add_log (EvVectorIndex "entries" "vector" (mkIndexSpec "cosine" 3 15))
         (set_db (set_tables
                    (insert "entries" (add_index "vector" (mkIndexSpec "cosine" 3 15) tm)))
                 w)).
Proof.
  cbv zeta. split; [reflexivity|]. split; [reflexivity|]. split; [reflexivity|].
  apply (proj2 (create_vector_index_policy
                  (sample_manager None 1536)
                  (sample_world 1536 [] [] [] (repeat standup 9))
                  "entries" "vector" (mkMeta (entries_schema 1536) [] [])
                  eq_refl eq_refl eq_refl)).
  vm_compute. discriminate.
Defined.

(** ** Cascade delete *)

Lemma delete_category_cascade_witness :
  let self := sample_manager None 2 in
  let w := small_store [] in
  let w' := snd (delete_category self "c1" w) in
  delete_category self "c1" w = (Ok true, w')
  ∧ (∀ t, In t (db_topics (w_db w')) → top_category_id t ≠ "c1")
  ∧ (∀ e t, In e (db_entries (w_db w')) → In t (db_topics (w_db w)) →
            top_category_id t = "c1" → ent_topic_id e ≠ top_id t)
  ∧ (∀ c, In c (db_categories (w_db w')) → cat_id c ≠ "c1")
  ∧ w_log w'
    = w_log w
        ++ map (λ id, EvDelete "entries" (PredEq "id" id))
               (entries_under (topics_under "c1" (w_db w)) (w_db w))
        ++ map (λ id, EvDelete "topics" (PredEq "id" id)) (topics_under "c1" (w_db w))
        ++ [EvDelete "categories" (PredEq "id" "c1")].
Proof.
  cbv zeta.
  assert (E : delete_category (sample_manager None 2) "c1" (small_store [])
              = (Ok true, snd (delete_category (sample_manager None 2) "c1" (small_store []))))
    by (vm_compute; reflexivity).
  split; [exact E|].
  exact (delete_category_cascade (sample_manager None 2) "c1" (small_store []) _ E).
Defined.

(** ** Updates *)

(** C10, at a failing input.  The category Work carries the description
    [Job notes]; renaming it with [description=None] stores a null
    description.  The same call on a topic keeps the topic's description. *)
Theorem update_category_drops_description :
  let self := sample_manager None 2 in
  let r := update_category self "c1" (Some "Office") None (small_store []) in
  let r' := update_topic self "t1" (Some "Standups") None (small_store []) in
  In work (db_categories (w_db (small_store [])))
  ∧ fst r = Ok true
  ∧ db_categories (w_db (snd r)) = [home; mkCategory "c1" (Some "Office") None]
  ∧ fst r' = Ok true
  ∧ db_topics (w_db (snd r'))
    = [garden; mkTopic "t1" "c1" (Some "Standups") (Some "Weekly syncs")].
Proof. cbv zeta. split; [by left|]. vm_compute. by repeat split. Qed.

Lemma update_entry_vector_witness :
  let ext := sample_ext (Some embedder) in
  let self := sample_manager (Some embedder) 2 in
  let w := small_store [] in
  let w' := snd (update_entry ext self "e1" (Some "Daily standup") None None None true w) in
  update_entry ext self "e1" (Some "Daily standup") None None None true w = (Ok true, w')
  ∧ ∃ row,
      List.filter (λ e, String.eqb (ent_id e) "e1") (db_entries (w_db w')) = [row]
      ∧ ent_vector row = Some [1%Q; 0%Q].
Proof.
  cbv zeta.
  assert (E : update_entry (sample_ext (Some embedder)) (sample_manager (Some embedder) 2)
                "e1" (Some "Daily standup") None None None true (small_store [])
              = (Ok true,
                 snd (update_entry (sample_ext (Some embedder))
                        (sample_manager (Some embedder) 2)
                        "e1" (Some "Daily standup") None None None true (small_store []))))
    by (vm_compute; reflexivity).
  split; [exact E|].
  destruct (update_entry_vector _ _ _ _ _ _ _ _ _ _ _ E)
    as (current & rest & row & Hcur & Hrow & Hkeep & _).
  exists row. split; [exact Hrow|].
  apply Hkeep; [|by left].
  vm_compute in Hcur. injection Hcur as <- _. reflexivity.
Defined.

(** C8 fails as stated: the entry is updated with the content it already
    has (the edit form always sends the content back); the content stays,
    the vector does not. *)
Lemma update_entry_same_content_reembeds :
  let ext := sample_ext (Some embedder) in
  let self := sample_manager (Some embedder) 2 in
  let w := small_store [] in
  let r := update_entry ext self "e1" (Some "Standup notes")
             (Some "deploy cadence is weekly") None None true w in
  let before := List.filter (λ e, String.eqb (ent_id e) "e1") (db_entries (w_db w)) in
  let after := List.filter (λ e, String.eqb (ent_id e) "e1") (db_entries (w_db (snd r))) in
  fst r = Ok true
  ∧ map ent_content after = map ent_content before
  ∧ map ent_vector before = [Some [1%Q; 0%Q]]
  ∧ map ent_vector after = [Some [(1 # 2)%Q; (1 # 2)%Q]]
  ∧ map ent_vector after ≠ map ent_vector before.
Proof. cbv zeta. vm_compute. repeat split. discriminate. Qed.

(** ** Embedding failures *)

Lemma get_embedding_never_raises_witness :
  let ext := sample_ext (Some failing_client) in
  let self := sample_manager (Some failing_client) 2 in
  client (embeddings self) = Some failing_client
  ∧ (∀ w, get_embedding ext (embeddings self) "deploy cadence" w
          = (Ok [0%Q; 0%Q], w))
  ∧ (∀ w handler,
       try_except (get_embedding ext (embeddings self) "deploy cadence") handler w
       = get_embedding ext (embeddings self) "deploy cadence" w).
Proof.
  cbv zeta. split; [reflexivity|].
  pose proof (get_embedding_never_raises (sample_ext (Some failing_client))
                (sample_manager (Some failing_client) 2) failing_client "deploy cadence"
                eq_refl) as (_ & Htry & Herr).
  split; [|exact Htry].
  exact (proj1 (Herr api_error eq_refl)).
Defined.

(** ** Retrieval *)

Lemma search_entries_with_filter_witness :
  let ext := sample_ext (Some embedder) in
  let self := sample_manager (Some embedder) 2 in
  let w := small_store ["title"; "content"] in
  truthy None || truthy (Some "t1") = true
  ∧ (∃ results w', search_entries ext self "cadence" 5 None (Some "t1") w = (Ok results, w'))
  ∧ (∀ results w',
       search_entries ext self "cadence" 5 None (Some "t1") w = (Ok results, w') →
       Forall (vector_hit ext self "cadence" None (Some "t1") (w_db w)) results
       ∧ w_db w' = w_db w)
  ∧ (∀ r w', search_entries ext self "cadence" 5 None (Some "t1") w = (r, w') →
             In (EvFtsSearch "entries" "cadence" 1) (w_log w')).
Proof.
  cbv zeta. split; [reflexivity|].
  pose proof (search_entries_with_filter (sample_ext (Some embedder))
                (sample_manager (Some embedder) 2) "cadence" 5 None (Some "t1")
                (small_store ["title"; "content"]) eq_refl) as (Hret & Hhits & Hlog).
  split; [exact Hret|]. split; [exact Hhits|].
  apply Hlog; [reflexivity | vm_compute; eauto].
Defined.

(** C2 fails as stated: with [topic_id] set the engine still receives the
    full-text queries, the two probes and the search, before the vector
    search. *)
Lemma search_entries_filter_sends_fulltext :
  let ext := sample_ext (Some embedder) in
  let self := sample_manager (Some embedder) 2 in
  let r := search_entries ext self "cadence" 5 None (Some "t1")
             (small_store ["title"; "content"]) in
  w_log (snd r)
  = [ EvFtsSearch "entries" "cadence" 1; EvFtsSearch "entries" "cadence" 1;
      EvFtsSearch "entries" "cadence" 5;
      EvVectorSearch "entries" (Some (PredEq "topic_id" "t1")) 5 ]
  ∧ ¬ Forall (λ e, is_fts_search e = false) (w_log (snd r)).
Proof.
  cbv zeta.
  assert (E : w_log (snd (search_entries (sample_ext (Some embedder))
                            (sample_manager (Some embedder) 2) "cadence" 5 None (Some "t1")
                            (small_store ["title"; "content"])))
              = [ EvFtsSearch "entries" "cadence" 1; EvFtsSearch "entries" "cadence" 1;
                  EvFtsSearch "entries" "cadence" 5;
                  EvVectorSearch "entries" (Some (PredEq "topic_id" "t1")) 5 ])
    by (vm_compute; reflexivity).
  split; [exact E|]. rewrite E. intros H. apply Forall_inv in H. discriminate H.
Qed.

(** C5, at a failing input.  The vector search finds both entries.  With
    the topic of the first one missing from a non-empty [topics] table the
    lookup raises and [search_entries] returns nothing at all; the
    placeholders only come out when the [topics] table has no row. *)
Theorem search_entries_orphan_entry :
  let ext := sample_ext (Some embedder) in
  let self := sample_manager (Some embedder) 2 in
  fst (vector_search ext (R := EntryRow) "entries" [(1 # 2)%Q; (1 # 2)%Q] None 5 orphan_store)
    = Ok [(standup, (6 # 10)%Q); (roses, (6 # 10)%Q)]
  ∧ fst (lookup_topic (db_topics (w_db orphan_store)) (ent_topic_id standup) orphan_store)
    = Raise (IndexError "single positional indexer is out-of-bounds")
  ∧ fst (search_entries ext self "cadence" 5 None None orphan_store) = Ok []
  ∧ fst (search_entries ext self "cadence" 5 None None bare_store)
    = Ok [ mkResult "e1" (Some "Standup notes") (Some "deploy cadence is weekly") (6 # 10)
                    (Some "manual") "t1" (Some "Unknown") None (Some "Unknown") [];
           mkResult "e2" (Some "Roses") (Some "prune in early spring") (6 # 10)
                    (Some "manual") "t2" (Some "Unknown") None (Some "Unknown") [] ].
Proof. cbv zeta. vm_compute. by repeat split. Qed.

(** ** Construction *)

Lemma knowledge_base_rejects_other_width_witness :
  let ext := sample_ext (Some (sample_client (zero_vector 3072))) in
  let tm := mkMeta (Document_schema 1536) [] [] in
  db_tables (w_db narrow_store) !! "documents" = Some tm
  ∧ vector_width (tm_schema tm) ≠ Some (dimensions (OpenAIEmbeddings_default ext))
  ∧ (∃ e w',
       KnowledgeBase_init ext "documents" true narrow_store = (Raise e, w')
       ∧ w_db w' = w_db narrow_store ∧ w_log w' = w_log narrow_store)
  ∧ KnowledgeBase_init ext "documents" true narrow_store
    = (Raise (dimension_mismatch 1536 3072), narrow_store).
Proof.
  cbv zeta.
  assert (Hw : vector_width (Document_schema 1536)
               ≠ Some (dimensions (OpenAIEmbeddings_default
                                     (sample_ext (Some (sample_client (zero_vector 3072)))))))
    by (vm_compute; discriminate).
  split; [reflexivity|]. split; [exact Hw|].
  pose proof (knowledge_base_rejects_other_width
                (sample_ext (Some (sample_client (zero_vector 3072)))) "documents" true
                narrow_store (mkMeta (Document_schema 1536) [] []) eq_refl Hw)
    as (Hraise & Hmsg & _).
  split; [exact Hraise|].
  apply (Hmsg 1536 narrow_store); [reflexivity | vm_compute; reflexivity | reflexivity].
Defined.

(** C6 fails as stated: over an [entries] table of width 1536 the manager,
    whose model has width 3072, is built without complaint; the mismatch
    shows at the first insert, which the engine refuses. *)
Lemma manager_opens_other_width :
  let ext := sample_ext None in
  let r := LanceDBManager_init ext narrow_store in
  (tm_schema <$> db_tables (w_db narrow_store) !! "entries") = Some (entries_schema 1536)
  ∧ fst r = Ok (mkManager (mkEmbeddings "text-embedding-3-large" None 3072))
  ∧ db_entries (w_db (snd r)) = db_entries (w_db narrow_store)
  ∧ fst (create_entry ext (mkManager (mkEmbeddings "text-embedding-3-large" None 3072))
           "t1" (Some "Standup notes") (Some "deploy cadence is weekly") None "manual" true
           (snd r))
    = Raise (EngineError "vector width does not match the table schema").
Proof. cbv zeta. vm_compute. by repeat split. Qed.

(** ** The answer pipeline *)

(** C1, at a failing input.  Retrieval returns two candidates and both pass
    the threshold; [answer_question] then evaluates the name [s], which is
    bound nowhere, and what comes back is the error answer of the outer
    handler with no source at all. *)
Theorem answer_question_stops_at_stray_name :
  let ext := sample_ext (Some embedder) in
  let self := QAProcessor_init None (Some (sample_manager (Some embedder) 2)) in
  let w := small_store [] in
  fst (retrieve ext self "The deploy cadence is weekly." 5 w)
    = Ok [ mkCandidate (Some (Some "deploy cadence is weekly")) (Some (Some "Standup notes"))
                       (Some (Some "manual")) (Some (Some (6 # 10)%Q));
           mkCandidate (Some (Some "prune in early spring")) (Some (Some "Roses"))
                       (Some (Some "manual")) (Some (Some (6 # 10)%Q)) ]
  ∧ fst (answer_question ext self "What is the deploy cadence?" 5 (9 # 10) w)
    = Ok (mkAnswer
            "An error occurred while processing your question: name 's' is not defined" []).
Proof. cbv zeta. vm_compute. by split. Qed.

Lemma relevance_fallback_witness :
  let ext := sample_ext None in
  let self := QAProcessor_init None None in
  let w := small_store [] in
  three_docs ≠ []
  ∧ none_relevant (4 # 10) three_docs
  ∧ select_results three_docs (4 # 10) w = (Ok (take 2 three_docs), w)
  ∧ ∃ a,
      answer_question_with_docs ext self "What is the deploy cadence?" three_docs (4 # 10) w
      = (Ok (mkAnswer a (map source_of_doc (take 5 (lowest_scores_first three_docs)))), w)
      ∧ map source_of_doc (take 5 (lowest_scores_first three_docs)) ≠ [].
Proof.
  cbv zeta.
  assert (Hne : three_docs ≠ []) by discriminate.
  assert (Hall : none_relevant (4 # 10) three_docs).
  { repeat constructor; eexists; split; reflexivity. }
  split; [exact Hne|]. split; [exact Hall|].
  pose proof (relevance_fallback (sample_ext None) (QAProcessor_init None None)
                "What is the deploy cadence?" three_docs (4 # 10) (small_store [])
                Hne Hall) as [Hsel Hdocs].
  split; [exact Hsel|]. apply Hdocs.
  repeat constructor; discriminate.
Defined.

(** C3 fails as stated: three docs, all of score 0.6 against a threshold of
    0.4; [answer_question_with_docs] grounds the answer in all three, not in
    the two best. *)
Lemma with_docs_fallback_is_not_top_two :
  let r := fst (answer_question_with_docs (sample_ext None) (QAProcessor_init None None)
                  "What is the deploy cadence?" three_docs (4 # 10) (small_store [])) in
  none_relevant (4 # 10) three_docs
  ∧ ∃ a srcs,
      r = Ok (mkAnswer a srcs)
      ∧ srcs = map source_of_doc three_docs
      ∧ length srcs = 3%nat
      ∧ srcs ≠ map source_of_doc (take 2 (lowest_scores_first three_docs)).
Proof.
  cbv zeta. split.
  { repeat constructor; eexists; split; reflexivity. }
  eexists _, _. split; [vm_compute; reflexivity|].
  split; [vm_compute; reflexivity|]. split; [reflexivity|]. vm_compute. discriminate.
Qed.

(** A category without topics gives no predicate at all: the search over
    it returns the entries of every category. *)
Lemma search_entries_empty_category_unfiltered :
  let ext := sample_ext (Some embedder) in
  let self := sample_manager (Some embedder) 2 in
  topics_under "c9" (w_db (small_store [])) = []
  ∧ match fst (search_entries ext self "cadence" 5 (Some "c9") None (small_store [])) with
    | Ok results => map sr_id results = ["e1"; "e2"]
    | Raise _ => False
    end.
Proof. cbv zeta. vm_compute. by split. Qed.
